(** * Cache reaper (src/reaper/reaper.py): a shallow embedding

    The reaper scans a Redis key-value store for [custom_domain:*] entries,
    asks the Forgejo API whether the mapped repository still has a [.pages]
    file, and deletes the eight cache keys of every mapping whose repository
    does not.

    Python [str] values are modelled as [string]: sequences of one-byte
    characters, read as the code points 0..255.  Counters and cursors are
    unbounded Python integers that only count upwards from 0: [nat].  HTTP
    status codes are [Z].  The store, the HTTP session and the sequence of
    calls made to them are explicit state. *)

From Stdlib Require Import String Ascii List Bool Arith ZArith Lia.
Import ListNotations.
Open Scope string_scope.

(** ** Python string primitives used by the reaper *)

(** [str.isalnum] on one character, for the code points 0..255:
    the ASCII digits and letters, and the Latin-1 letters and numerics
    (feminine/masculine ordinal, micro sign, superscript 1-3, the vulgar
    fractions, and the accented letters except the multiplication and
    division signs). *)
Definition isalnum (c : ascii) : bool :=
  let n := nat_of_ascii c in
  (((48 <=? n) && (n <=? 57))
   || ((65 <=? n) && (n <=? 90))
   || ((97 <=? n) && (n <=? 122))
   || (n =? 170) || (n =? 181) || (n =? 186)
   || (n =? 178) || (n =? 179) || (n =? 185)
   || ((188 <=? n) && (n <=? 190))
   || ((192 <=? n) && (n <=? 214))
   || ((216 <=? n) && (n <=? 246))
   || ((248 <=? n) && (n <=? 255)))%nat.

(** [s.replace(a, b)] for one-character [a] and [b]. *)
Fixpoint replace (a b : ascii) (s : string) : string :=
  match s with
  | EmptyString => EmptyString
  | String c s' => String (if Ascii.eqb c a then b else c) (replace a b s')
  end.

(** ["".join(f(c) for c in s)] for a character-to-character [f]. *)
Fixpoint join_map (f : ascii -> ascii) (s : string) : string :=
  match s with
  | EmptyString => EmptyString
  | String c s' => String (f c) (join_map f s')
  end.

(** [s.split(sep, 1)]: at most one split, at the first occurrence of the
    one-character separator.  The result has one element when [sep] does not
    occur and two when it does. *)
Fixpoint split1 (sep : ascii) (s : string) : list string :=
  match s with
  | EmptyString => [EmptyString]
  | String c s' =>
      if Ascii.eqb c sep then [EmptyString; s']
      else match split1 sep s' with
           | h :: t => String c h :: t
           | [] => [String c EmptyString]
           end
  end.

(** [s[n:]]: the slice from index [n] to the end; empty when [s] is shorter. *)
Fixpoint slice_from (n : nat) (s : string) : string :=
  match n, s with
  | O, _ => s
  | S n', String _ s' => slice_from n' s'
  | S _, EmptyString => EmptyString
  end.

(** [s.rstrip("/")]. *)
Fixpoint rstrip_slash (s : string) : string :=
  match s with
  | EmptyString => EmptyString
  | String c s' =>
      match rstrip_slash s' with
      | EmptyString => if Ascii.eqb c "/" then EmptyString else String c EmptyString
      | r => String c r
      end
  end.

(** Truthiness of an [Optional[str]]: [not value] holds for [None] and for
    the empty string. *)
Definition falsy (value : option string) : bool :=
  match value with
  | None => true
  | Some EmptyString => true
  | Some _ => false
  end.

(** ** Domain key codec *)

(** [CacheReaper.parse_repo_mapping]. *)
Definition parse_repo_mapping (value : string) : option (string * string) :=
  match split1 ":" value with
  | [p0; p1] => Some (p0, p1)
  | _ => None
  end.

(** [CacheReaper.sanitize_domain_name]. *)
Definition sanitize_domain_name (domain : string) : string :=
  let sanitized := replace "_" "-" (replace "." "-" domain) in
  join_map (fun c => if isalnum c || Ascii.eqb c "-" then c else "-"%char) sanitized.

(** The list [keys_to_delete] that [CacheReaper.delete_domain_mappings]
    builds before it touches the store. *)
Definition keys_to_delete (domain username repository : string) : list string :=
  let forward_key := "custom_domain:" ++ domain in
  let reverse_key := username ++ ":" ++ repository in
  let sanitized_domain := sanitize_domain_name domain in
  let traefik_keys :=
    [ "traefik/http/routers/custom-" ++ sanitized_domain ++ "/rule";
      "traefik/http/routers/custom-" ++ sanitized_domain ++ "/entrypoints/0";
      "traefik/http/routers/custom-" ++ sanitized_domain ++ "/service";
      "traefik/http/routers/custom-" ++ sanitized_domain ++ "/tls/certresolver";
      "traefik/http/routers/custom-" ++ sanitized_domain ++ "/middlewares/0";
      "traefik/http/routers/custom-" ++ sanitized_domain ++ "/priority" ] in
  (([forward_key] ++ [reverse_key]) ++ traefik_keys)%list.

(** ** The key-value store

    Modelled from the spec: the store client ([redis.Redis]) is an external
    library; section 6 gives its interface, [SCAN(cursor, pattern, pageSize)
    -> (nextCursor, matchedKeys)], [GET(key) -> value|absent] and
    [DELETE(key) -> deletedCount] (0 or 1).  The store is a table of buckets,
    each empty or holding one entry.  A scan call examines the next [count]
    buckets starting at the cursor and returns the keys among them that
    match the pattern; the cursor it returns is the index of the first
    bucket not yet examined, or the sentinel 0 once the table is exhausted.
    A delete empties the bucket of the key and leaves every other bucket
    where it is, so that a scan in progress is not disturbed; the
    statements that compare a normal run with the store it started on are
    made for any DELETE instead, with what they need of it as a hypothesis
    (see the run over a store that may move its entries).  SCAN and GET
    are taken to answer: the source does not catch a [redis.RedisError]
    raised by them, which ends the run without a summary.  A raising DELETE
    is caught by the source and is part of the model ([delete_raises]
    below). *)

Definition slot : Type := option (string * string).
Definition Store : Type := list slot.

(** Glob matching, for patterns made of literal characters and [*]. *)
Fixpoint glob_match (pattern : string) : string -> bool :=
  match pattern with
  | EmptyString =>
      fun key => match key with EmptyString => true | String _ _ => false end
  | String p pattern' =>
      if Ascii.eqb p "*" then
        fix star (key : string) : bool :=
          glob_match pattern' key
          || match key with
             | EmptyString => false
             | String _ key' => star key'
             end
      else
        fun key =>
          match key with
          | EmptyString => false
          | String c key' => Ascii.eqb p c && glob_match pattern' key'
          end
  end.

Fixpoint matching_keys (pattern : string) (page : list slot) : list string :=
  match page with
  | [] => []
  | None :: page' => matching_keys pattern page'
  | Some (k, _) :: page' =>
      if glob_match pattern k then k :: matching_keys pattern page'
      else matching_keys pattern page'
  end.

Definition redis_scan (s : Store) (cursor : nat) (pattern : string) (count : nat)
  : nat * list string :=
  let next := cursor + count in
  ((if (next <? length s)%nat then next else 0),
   matching_keys pattern (firstn count (skipn cursor s))).

Fixpoint redis_get (s : Store) (key : string) : option string :=
  match s with
  | [] => None
  | None :: s' => redis_get s' key
  | Some (k, v) :: s' => if String.eqb k key then Some v else redis_get s' key
  end.

Definition clear_slot (key : string) (sl : slot) : slot :=
  match sl with
  | None => None
  | Some (k, v) => if String.eqb k key then None else Some (k, v)
  end.

Definition redis_delete (s : Store) (key : string) : nat * Store :=
  (match redis_get s key with Some _ => 1 | None => 0 end,
   map (clear_slot key) s).

(** ** The HTTP session *)

(** Outcome of [session.get(url, timeout=10)]: a response with its status
    code, or a raised [requests.RequestException] (connection failure,
    timeout, protocol error). *)
Inductive HttpResult : Type :=
  | Response (status_code : Z)
  | RequestException.

(** ** State of a run *)

(** The calls made to the two collaborators, most recent first. *)
Inductive Call : Type :=
  | Scan (cursor : nat) (pattern : string) (count : nat)
  | Get (key : string)
  | Delete (key : string)
  | HttpGet (url : string).

Record World : Type := mkWorld {
  store : Store;
  calls : list Call
}.

Definition record (c : Call) (w : World) : World :=
  mkWorld (store w) (c :: calls w).

Definition is_delete (c : Call) : bool :=
  match c with Delete _ => true | _ => false end.

Definition is_http_get (c : Call) : bool :=
  match c with HttpGet _ => true | _ => false end.

(** ** The reaper *)

(** The fields of [CacheReaper] that the run reads.  [session_get] is the
    behaviour of [self.session.get] on each URL; [delete_raises] tells on
    which keys [self.redis_client.delete] raises [redis.RedisError].  The
    request headers (token, Accept) do not reach the run's control flow. *)
Record CacheReaper : Type := mkCacheReaper {
  forgejo_host : string;
  dry_run : bool;
  session_get : string -> HttpResult;
  delete_raises : string -> bool
}.

(** [CacheReaper.__init__]. *)
Definition init (forgejo_host : string) (dry_run : bool)
    (session_get : string -> HttpResult) (delete_raises : string -> bool)
  : CacheReaper :=
  mkCacheReaper (rstrip_slash forgejo_host) dry_run session_get delete_raises.

Definition pages_url (self : CacheReaper) (username repository : string) : string :=
  forgejo_host self ++ "/api/v1/repos/" ++ username ++ "/" ++ repository
    ++ "/contents/.pages".

(** [CacheReaper.has_pages_file]. *)
Definition has_pages_file (self : CacheReaper) (username repository : string)
    (w : World) : bool * World :=
  let url := pages_url self username repository in
  let w := record (HttpGet url) w in
  match session_get self url with
  | Response status_code => (Z.eqb status_code 200, w)
  | RequestException => (true, w)
  end.

(** The [for key in keys_to_delete] loop of the normal mode. *)
Fixpoint delete_keys (self : CacheReaper) (keys : list string)
    (deleted_count : nat) (w : World) : nat * World :=
  match keys with
  | [] => (deleted_count, w)
  | key :: keys' =>
      let w := record (Delete key) w in
      if delete_raises self key then delete_keys self keys' deleted_count w
      else
        let '(n, s) := redis_delete (store w) key in
        let w := mkWorld s (calls w) in
        delete_keys self keys'
          (if (0 <? n)%nat then S deleted_count else deleted_count) w
  end.

(** [CacheReaper.delete_domain_mappings]. *)
Definition delete_domain_mappings (self : CacheReaper)
    (domain username repository : string) (w : World) : World :=
  let keys := keys_to_delete domain username repository in
  if dry_run self then w
  else snd (delete_keys self keys 0 w).

Record Counters : Type := mkCounters {
  total_domains : nat;
  cleaned_domains : nat;
  error_count : nat
}.

(** Body of [for key in keys] in [CacheReaper.scan_and_clean]. *)
Definition scan_and_clean_key (self : CacheReaper) (key : string)
    (c : Counters) (w : World) : Counters * World :=
  let total := S (total_domains c) in
  let domain := slice_from (String.length "custom_domain:") key in
  let value := redis_get (store w) key in
  let w := record (Get key) w in
  match value with
  | None | Some EmptyString =>
      (mkCounters total (cleaned_domains c) (S (error_count c)), w)
  | Some value =>
      match parse_repo_mapping value with
      | None => (mkCounters total (cleaned_domains c) (S (error_count c)), w)
      | Some (username, repository) =>
          let '(has, w) := has_pages_file self username repository w in
          if negb has then
            let w := delete_domain_mappings self domain username repository w in
            (mkCounters total (S (cleaned_domains c)) (error_count c), w)
          else (mkCounters total (cleaned_domains c) (error_count c), w)
      end
  end.

Fixpoint scan_and_clean_keys (self : CacheReaper) (keys : list string)
    (c : Counters) (w : World) : Counters * World :=
  match keys with
  | [] => (c, w)
  | key :: keys' =>
      let '(c, w) := scan_and_clean_key self key c w in
      scan_and_clean_keys self keys' c w
  end.

(** The [while True] loop of [CacheReaper.scan_and_clean], with the page
    size passed to [scan] as a parameter.  One unit of fuel is one
    iteration; [None] means the fuel ran out before the cursor came back
    to 0. *)
Fixpoint scan_and_clean_loop (fuel : nat) (self : CacheReaper) (count : nat)
    (cursor : nat) (c : Counters) (w : World) : option (Counters * World) :=
  match fuel with
  | O => None
  | S fuel' =>
      let pattern := "custom_domain:*" in
      let '(next, keys) := redis_scan (store w) cursor pattern count in
      let w := record (Scan cursor pattern count) w in
      let '(c, w) := scan_and_clean_keys self keys c w in
      if (next =? 0)%nat then Some (c, w)
      else scan_and_clean_loop fuel' self count next c w
  end.

Definition scan_and_clean_paged (fuel : nat) (count : nat) (self : CacheReaper)
    (w : World) : option ((nat * nat * nat) * World) :=
  match scan_and_clean_loop fuel self count 0 (mkCounters 0 0 0) w with
  | None => None
  | Some (c, w) =>
      Some ((total_domains c, cleaned_domains c, error_count c), w)
  end.

(** [CacheReaper.scan_and_clean]: the source passes [count=100]. *)
Definition scan_and_clean (fuel : nat) (self : CacheReaper) (w : World)
  : option ((nat * nat * nat) * World) :=
  scan_and_clean_paged fuel 100 self w.

(** ** Vocabulary for the statements *)

(** [sep in s]. *)
Fixpoint contains_char (sep : ascii) (s : string) : bool :=
  match s with
  | EmptyString => false
  | String c s' => Ascii.eqb c sep || contains_char sep s'
  end.

(** [needle] occurs in [hay]. *)
Definition occurs_in (needle hay : string) : Prop :=
  exists pre suf, hay = pre ++ needle ++ suf.

(** What [sanitize_domain_name] does to one character. *)
Definition sanitize_char (c : ascii) : ascii :=
  let c1 := if Ascii.eqb c "." then "-"%char else c in
  let c2 := if Ascii.eqb c1 "_" then "-"%char else c1 in
  if isalnum c2 || Ascii.eqb c2 "-" then c2 else "-"%char.

(** The same reaper with the [--dry-run] flag set to [b]. *)
Definition with_dry_run (b : bool) (self : CacheReaper) : CacheReaper :=
  mkCacheReaper (forgejo_host self) b (session_get self) (delete_raises self).

(** The keys present in the store, in bucket order. *)
Fixpoint stored_keys (s : Store) : list string :=
  match s with
  | [] => []
  | None :: s' => stored_keys s'
  | Some (k, _) :: s' => k :: stored_keys s'
  end.

(** A key of the forward keyspace [custom_domain:*]. *)
Definition is_forward (key : string) : bool :=
  glob_match "custom_domain:*" key.

(** The forward entries of the store, in bucket order. *)
Definition forward_keys (s : Store) : list string :=
  matching_keys "custom_domain:*" s.

(** No key is stored twice. *)
Definition store_wf (s : Store) : Prop := NoDup (stored_keys s).

(** No forward entry's value is itself a key of the forward keyspace:
    the reverse key [owner:repository] of a mapping never names another
    mapping's forward entry. *)
Definition no_collision (s : Store) : Prop :=
  forall k v, In (Some (k, v)) s -> is_forward k = true -> is_forward v = false.

(** The counters of a run never count a key twice. *)
Definition counters_ok (c : Counters) : Prop :=
  cleaned_domains c + error_count c <= total_domains c.

(** ** Scenarios *)

Definition never_raises (_ : string) : bool := false.

(** A session that answers every request with the same status code. *)
Definition session_status (status_code : Z) (_ : string) : HttpResult :=
  Response status_code.

(** A session on which every request times out. *)
Definition session_timeout (_ : string) : HttpResult := RequestException.

Definition reaper_with (session : string -> HttpResult) (dry : bool)
  : CacheReaper :=
  init "https://git.example.com/" dry session never_raises.

Definition store_one : Store :=
  [Some ("custom_domain:b.test", "carol:siteB")].

(** Two mappings whose owner is the user [custom_domain]: the reverse key
    of each is the forward key of the other. *)
Definition store_crossed : Store :=
  [Some ("custom_domain:a.test", "custom_domain:b.test");
   Some ("custom_domain:b.test", "custom_domain:a.test")].

(** The same two mappings, more than one page of 100 buckets apart. *)
Definition store_crossed_far : Store :=
  ((Some ("custom_domain:a.test", "custom_domain:b.test") :: repeat None 99)
     ++ [Some ("custom_domain:b.test", "custom_domain:a.test")])%list.

(** ** More vocabulary *)

(** Every character of [s] satisfies [p]. *)
Fixpoint string_forall (p : ascii -> bool) (s : string) : bool :=
  match s with
  | EmptyString => true
  | String c s' => p c && string_forall p s'
  end.

(** The characters a sanitized name is made of. *)
Definition router_char (c : ascii) : bool := isalnum c || Ascii.eqb c "-".

(** ["/" * n]. *)
Fixpoint slashes (n : nat) : string :=
  match n with
  | O => EmptyString
  | S n' => String "/" (slashes n')
  end.

(** [s.endswith("/")]. *)
Fixpoint ends_with_slash (s : string) : bool :=
  match s with
  | EmptyString => false
  | String c EmptyString => Ascii.eqb c "/"
  | String _ s' => ends_with_slash s'
  end.

(** A bucket after the keys of [gone] have been deleted. *)
Definition clear_keys (gone : list string) (sl : slot) : slot :=
  match sl with
  | None => None
  | Some (k, v) => if existsb (String.eqb k) gone then None else Some (k, v)
  end.

(** The number of entries in the store. *)
Definition occupied (s : Store) : nat := length (stored_keys s).

Definition is_get (c : Call) : bool :=
  match c with Get _ => true | _ => false end.

Definition count_calls (p : Call -> bool) (w : World) : nat :=
  length (filter p (calls w)).

(** What the loop body decides for a key, read off the store and the
    session: skipped with an error, retained, or evicted. *)
Inductive Verdict : Type := Skipped | Retained | Evicted.

Definition verdict (self : CacheReaper) (s : Store) (key : string) : Verdict :=
  match redis_get s key with
  | None | Some EmptyString => Skipped
  | Some value =>
      match parse_repo_mapping value with
      | None => Skipped
      | Some (username, repository) =>
          match session_get self (pages_url self username repository) with
          | Response status_code =>
              if Z.eqb status_code 200 then Retained else Evicted
          | RequestException => Retained
          end
      end
  end.

Definition is_skipped (v : Verdict) : bool :=
  match v with Skipped => true | _ => false end.

Definition is_evicted (v : Verdict) : bool :=
  match v with Evicted => true | _ => false end.

(** The number of [keys] for which the verdict on store [s] satisfies [p]. *)
Definition count_verdict (p : Verdict -> bool) (self : CacheReaper)
    (s : Store) (keys : list string) : nat :=
  length (filter (fun k => p (verdict self s k)) keys).

(** The counters after a key with verdict [v]. *)
Definition tally (v : Verdict) (c : Counters) : Counters :=
  match v with
  | Skipped =>
      mkCounters (S (total_domains c)) (cleaned_domains c) (S (error_count c))
  | Retained =>
      mkCounters (S (total_domains c)) (cleaned_domains c) (error_count c)
  | Evicted =>
      mkCounters (S (total_domains c)) (S (cleaned_domains c)) (error_count c)
  end.

(** The keys of the delete calls in [cs] that did not raise. *)
Fixpoint deleted_keys (self : CacheReaper) (cs : list Call) : list string :=
  match cs with
  | [] => []
  | Delete k :: cs' =>
      if delete_raises self k then deleted_keys self cs'
      else k :: deleted_keys self cs'
  | _ :: cs' => deleted_keys self cs'
  end.

(** [w'] is reached from [w] by calls of [self]: the calls of [w'] are
    those of [w] with new ones in front, and the store of [w'] is the store
    of [w] without the keys the new calls deleted. *)
Definition reached_from (self : CacheReaper) (w w' : World) : Prop :=
  exists new,
    calls w' = (new ++ calls w)%list
    /\ store w' = map (clear_keys (deleted_keys self new)) (store w).

(** The counters after the keys [keys], each judged on the store [s]. *)
Definition tally_all (self : CacheReaper) (s : Store) (keys : list string)
    (c : Counters) : Counters :=
  fold_left (fun c k => tally (verdict self s k) c) keys c.

(** ** The run over a store that may move its entries

    The store above deletes in place.  The interface of section 6 says
    what a DELETE does to the value under a key, not how it lays the table
    out for the scans that follow.  The definitions below are the code of
    [delete_domain_mappings] and [scan_and_clean] once more, with the table
    after a DELETE given by [del]; deleting in place and deleting with
    compaction are two instances. *)

Definition delete_in_place (s : Store) (key : string) : Store :=
  snd (redis_delete s key).

(** A delete that closes the gap it leaves: the entries after the deleted
    one move up. *)
Definition delete_compacting (s : Store) (key : string) : Store :=
  filter (fun sl => match sl with Some _ => true | None => false end)
    (snd (redis_delete s key)).

(** The [for key in keys_to_delete] loop of the normal mode. *)
Fixpoint delete_keys_with (del : Store -> string -> Store)
    (self : CacheReaper) (keys : list string)
    (deleted_count : nat) (w : World) : nat * World :=
  match keys with
  | [] => (deleted_count, w)
  | key :: keys' =>
      let w := record (Delete key) w in
      if delete_raises self key then
        delete_keys_with del self keys' deleted_count w
      else
        let n := fst (redis_delete (store w) key) in
        let w := mkWorld (del (store w) key) (calls w) in
        delete_keys_with del self keys'
          (if (0 <? n)%nat then S deleted_count else deleted_count) w
  end.

(** [CacheReaper.delete_domain_mappings]. *)
Definition delete_domain_mappings_with (del : Store -> string -> Store)
    (self : CacheReaper) (domain username repository : string) (w : World)
  : World :=
  let keys := keys_to_delete domain username repository in
  if dry_run self then w
  else snd (delete_keys_with del self keys 0 w).

(** Body of [for key in keys] in [CacheReaper.scan_and_clean]. *)
Definition scan_and_clean_key_with (del : Store -> string -> Store)
    (self : CacheReaper) (key : string) (c : Counters) (w : World)
  : Counters * World :=
  let total := S (total_domains c) in
  let domain := slice_from (String.length "custom_domain:") key in
  let value := redis_get (store w) key in
  let w := record (Get key) w in
  match value with
  | None | Some EmptyString =>
      (mkCounters total (cleaned_domains c) (S (error_count c)), w)
  | Some value =>
      match parse_repo_mapping value with
      | None => (mkCounters total (cleaned_domains c) (S (error_count c)), w)
      | Some (username, repository) =>
          let '(has, w) := has_pages_file self username repository w in
          if negb has then
            let w :=
              delete_domain_mappings_with del self domain username repository w in
            (mkCounters total (S (cleaned_domains c)) (error_count c), w)
          else (mkCounters total (cleaned_domains c) (error_count c), w)
      end
  end.

Fixpoint scan_and_clean_keys_with (del : Store -> string -> Store)
    (self : CacheReaper) (keys : list string) (c : Counters) (w : World)
  : Counters * World :=
  match keys with
  | [] => (c, w)
  | key :: keys' =>
      let '(c, w) := scan_and_clean_key_with del self key c w in
      scan_and_clean_keys_with del self keys' c w
  end.

(** The [while True] loop of [CacheReaper.scan_and_clean]. *)
Fixpoint scan_and_clean_loop_with (del : Store -> string -> Store)
    (fuel : nat) (self : CacheReaper) (count : nat)
    (cursor : nat) (c : Counters) (w : World) : option (Counters * World) :=
  match fuel with
  | O => None
  | S fuel' =>
      let pattern := "custom_domain:*" in
      let '(next, keys) := redis_scan (store w) cursor pattern count in
      let w := record (Scan cursor pattern count) w in
      let '(c, w) := scan_and_clean_keys_with del self keys c w in
      if (next =? 0)%nat then Some (c, w)
      else scan_and_clean_loop_with del fuel' self count next c w
  end.

Definition scan_and_clean_paged_with (del : Store -> string -> Store)
    (fuel : nat) (count : nat) (self : CacheReaper) (w : World)
  : option ((nat * nat * nat) * World) :=
  match scan_and_clean_loop_with del fuel self count 0 (mkCounters 0 0 0) w with
  | None => None
  | Some (c, w) =>
      Some ((total_domains c, cleaned_domains c, error_count c), w)
  end.

(** What the statements ask of a store's DELETE. *)

(** GET after DELETE: the deleted key is absent, every other key holds
    what it held. *)
Definition delete_law (del : Store -> string -> Store) : Prop :=
  forall s key k,
    redis_get (del s key) k
    = if String.eqb key k then None else redis_get s k.

(** SCAN after DELETE: every scan call returns the cursor and the keys it
    would have returned before the delete, less the deleted key.  The scan
    in progress is not disturbed: no key is moved behind the cursor or in
    front of it. *)
Definition scan_undisturbed (del : Store -> string -> Store) : Prop :=
  forall s key cursor pattern count,
    redis_scan (del s key) cursor pattern count
    = (fst (redis_scan s cursor pattern count),
       filter (fun k => negb (String.eqb key k))
         (snd (redis_scan s cursor pattern count))).

(** A DELETE never lengthens the table. *)
Definition never_grows (del : Store -> string -> Store) : Prop :=
  forall s key, length (del s key) <= length s.

(** [no_collision], read through GET. *)
Definition no_collision_get (s : Store) : Prop :=
  forall k v, redis_get s k = Some v -> is_forward k = true ->
              is_forward v = false.

(** The store [n] of a normal run that started on the store [d], after
    the keys [gone] have been deleted: GET and SCAN answer on [n] as they
    do on [d], less the keys of [gone]. *)
Definition follows (gone : list string) (d n : Store) : Prop :=
  (forall k,
     redis_get n k
     = if existsb (String.eqb k) gone then None else redis_get d k)
  /\ (forall cursor count,
        redis_scan n cursor "custom_domain:*" count
        = (fst (redis_scan d cursor "custom_domain:*" count),
           filter (fun k => negb (existsb (String.eqb k) gone))
             (snd (redis_scan d cursor "custom_domain:*" count)))).

(** The normal run of [self] that started on [d] has dealt with the forward
    keys [done] and is at the store [n]: the forward keys deleted so far
    are among [done], and, when no delete raises, they are the evicted
    keys of [done]. *)
Definition in_step (self : CacheReaper) (d n : Store) (done : list string)
  : Prop :=
  exists gone,
    follows gone d n
    /\ (forall x, In x gone -> is_forward x = true -> In x done)
    /\ ((forall k, delete_raises self k = false) ->
        forall k, In k done ->
          existsb (String.eqb k) gone = is_evicted (verdict self d k)).

(** Two mappings, one of them stale for [session_one_stale]. *)
Definition store_two : Store :=
  [Some ("custom_domain:a.test", "bob:siteA");
   Some ("custom_domain:b.test", "carol:siteB")].

(** A session that knows [bob/siteA] and nothing else. *)
Definition session_one_stale (url : string) : HttpResult :=
  if String.eqb url
       "https://git.example.com/api/v1/repos/bob/siteA/contents/.pages"
  then Response 200 else Response 404.

(** * Properties *)

(** ** String primitives *)

Lemma append_assoc (a b c : string) : (a ++ b) ++ c = a ++ (b ++ c).
Proof. induction a as [|x a IH]; simpl; [reflexivity | now rewrite IH]. Qed.

Lemma split1_absent (sep : ascii) (s : string) :
  contains_char sep s = false -> split1 sep s = [s].
Proof.
  induction s as [|c s IH]; simpl; intros H; [reflexivity|].
  apply orb_false_iff in H as [Hc Hs].
  rewrite Hc, (IH Hs). reflexivity.
Qed.

Lemma split1_first (sep : ascii) (a b : string) :
  contains_char sep a = false -> split1 sep (a ++ String sep b) = [a; b].
Proof.
  induction a as [|c a IH]; simpl; intros H.
  - rewrite Ascii.eqb_refl. reflexivity.
  - apply orb_false_iff in H as [Hc Ha].
    rewrite Hc, (IH Ha). reflexivity.
Qed.

Lemma contains_char_decompose (sep : ascii) (s : string) :
  contains_char sep s = true ->
  exists a b, s = a ++ String sep b /\ contains_char sep a = false.
Proof.
  induction s as [|c s IH]; simpl; intros H; [discriminate|].
  destruct (Ascii.eqb c sep) eqn:Hc.
  - apply Ascii.eqb_eq in Hc. subst c.
    exists EmptyString, s. split; reflexivity.
  - simpl in H. destruct (IH H) as (a & b & -> & Ha).
    exists (String c a), b. simpl. rewrite Hc, Ha. split; reflexivity.
Qed.

Lemma split1_rejoin (sep : ascii) (s p0 p1 : string) :
  split1 sep s = [p0; p1] -> s = p0 ++ String sep p1.
Proof.
  revert p0. induction s as [|c s IH]; simpl; intros p0 H; [discriminate|].
  destruct (Ascii.eqb c sep) eqn:Hc.
  - apply Ascii.eqb_eq in Hc. injection H as <- <-. subst c. reflexivity.
  - destruct (split1 sep s) as [|h t] eqn:Hs; [discriminate|].
    injection H as <- ->. simpl. f_equal. apply IH. reflexivity.
Qed.

Lemma parse_repo_mapping_rejoin (value username repository : string) :
  parse_repo_mapping value = Some (username, repository) ->
  username ++ ":" ++ repository = value.
Proof.
  unfold parse_repo_mapping. intros H.
  destruct (split1 ":" value) as [|p0 [|p1 [|p2 t]]] eqn:Hs; try discriminate.
  injection H as <- <-. symmetry. apply (split1_rejoin _ _ _ _ Hs).
Qed.

Lemma sanitize_char_idempotent (c : ascii) :
  sanitize_char (sanitize_char c) = sanitize_char c.
Proof.
  destruct c as [[] [] [] [] [] [] [] []]; reflexivity.
Qed.

Lemma sanitize_domain_name_cons (c : ascii) (s : string) :
  sanitize_domain_name (String c s)
  = String (sanitize_char c) (sanitize_domain_name s).
Proof. reflexivity. Qed.

Example sanitize_example :
  sanitize_domain_name "git.example.com" = "git-example-com".
Proof. reflexivity. Qed.

(** ** Domain key codec *)

(** C4: the key list built for eviction is, for every domain, owner and
    repository, these eight keys in this order: the forward key, the reverse
    key, and the six routing keys rule, entrypoints/0, service,
    tls/certresolver, middlewares/0, priority under
    traefik/http/routers/custom-<sanitized domain>/; each routing key
    contains custom-<sanitized domain>. *)
Theorem keys_to_delete_eight (domain username repository : string) :
  let token := sanitize_domain_name domain in
  let prefix := "traefik/http/routers/custom-" ++ token ++ "/" in
  keys_to_delete domain username repository
  = [ "custom_domain:" ++ domain;
      username ++ ":" ++ repository;
      prefix ++ "rule";
      prefix ++ "entrypoints/0";
      prefix ++ "service";
      prefix ++ "tls/certresolver";
      prefix ++ "middlewares/0";
      prefix ++ "priority" ]
  /\ length (keys_to_delete domain username repository) = 8
  /\ Forall (occurs_in ("custom-" ++ token))
       (skipn 2 (keys_to_delete domain username repository)).
Proof.
  cbv zeta. split; [|split].
  - unfold keys_to_delete. cbn [app].
    rewrite !append_assoc. reflexivity.
  - reflexivity.
  - unfold keys_to_delete. cbn [app skipn].
    repeat constructor;
      match goal with
      | |- occurs_in _ (_ ++ _ ++ ?suf) =>
          exists "traefik/http/routers/", suf; reflexivity
      end.
Qed.

Example keys_to_delete_example :
  keys_to_delete "git.example.com" "alice" "myrepo"
  = [ "custom_domain:git.example.com"; "alice:myrepo";
      "traefik/http/routers/custom-git-example-com/rule";
      "traefik/http/routers/custom-git-example-com/entrypoints/0";
      "traefik/http/routers/custom-git-example-com/service";
      "traefik/http/routers/custom-git-example-com/tls/certresolver";
      "traefik/http/routers/custom-git-example-com/middlewares/0";
      "traefik/http/routers/custom-git-example-com/priority" ].
Proof. reflexivity. Qed.

(** C5: sanitization is idempotent, and it is the character-wise map that
    sends '.' and '_' to '-' and then every character that is neither
    alphanumeric nor '-' to '-'. *)
Theorem sanitize_domain_name_idempotent (x : string) :
  sanitize_domain_name (sanitize_domain_name x) = sanitize_domain_name x
  /\ sanitize_domain_name x = join_map sanitize_char x.
Proof.
  split.
  - induction x as [|c x IH]; [reflexivity|].
    rewrite !sanitize_domain_name_cons, sanitize_char_idempotent, IH.
    reflexivity.
  - induction x as [|c x IH]; [reflexivity|].
    rewrite sanitize_domain_name_cons, IH. reflexivity.
Qed.

(** C6: [parse_repo_mapping] splits at the first ':' only.  A value with a
    ':' is of the form a ++ ":" ++ b with no ':' in a, and parses to (a, b);
    a value without ':' parses to nothing. *)
Theorem parse_repo_mapping_first_colon (value : string) :
  (contains_char ":" value = true ->
   exists a b, value = a ++ ":" ++ b /\ contains_char ":" a = false
               /\ parse_repo_mapping value = Some (a, b))
  /\ (contains_char ":" value = false -> parse_repo_mapping value = None)
  /\ parse_repo_mapping "a:b:c" = Some ("a", "b:c")
  /\ parse_repo_mapping "no-colon-here" = None
  /\ parse_repo_mapping "alice:myrepo" = Some ("alice", "myrepo").
Proof.
  split; [|split; [|repeat split]].
  - intros H. destruct (contains_char_decompose _ _ H) as (a & b & -> & Ha).
    exists a, b. split; [reflexivity|]. split; [exact Ha|].
    unfold parse_repo_mapping. rewrite (split1_first _ _ _ Ha). reflexivity.
  - intros H. unfold parse_repo_mapping. rewrite (split1_absent _ _ H).
    reflexivity.
Qed.

Lemma parse_repo_mapping_first_colon_witness :
  (exists a b, "a:b:c" = a ++ ":" ++ b /\ contains_char ":" a = false
               /\ parse_repo_mapping "a:b:c" = Some (a, b))
  /\ parse_repo_mapping "no-colon-here" = None.
Proof.
  split.
  - apply (proj1 (parse_repo_mapping_first_colon "a:b:c")). reflexivity.
  - apply (proj1 (proj2 (parse_repo_mapping_first_colon "no-colon-here"))).
    reflexivity.
Defined.

(** ** Store operations *)

Lemma redis_get_clear (s : Store) (x k : string) :
  redis_get (map (clear_slot x) s) k
  = if String.eqb x k then None else redis_get s k.
Proof.
  induction s as [|[[k0 v0]|] s IH]; simpl.
  - now destruct (String.eqb x k).
  - destruct (String.eqb k0 x) eqn:Hx; simpl.
    + apply String.eqb_eq in Hx. subst k0. rewrite IH.
      now destruct (String.eqb x k).
    + destruct (String.eqb k0 k) eqn:Hk; [|exact IH].
      apply String.eqb_eq in Hk. subst k0.
      rewrite String.eqb_sym, Hx. reflexivity.
  - exact IH.
Qed.

Lemma delete_keys_calls (self : CacheReaper) (keys : list string) :
  forall n w,
    calls (snd (delete_keys self keys n w))
    = (rev (map Delete keys) ++ calls w)%list.
Proof.
  induction keys as [|key keys IH]; intros n w; simpl; [reflexivity|].
  destruct (delete_raises self key); rewrite IH; simpl;
    rewrite <- app_assoc; reflexivity.
Qed.

Lemma delete_keys_get (self : CacheReaper) (keys : list string) (k : string) :
  forall n w,
    redis_get (store (snd (delete_keys self keys n w))) k
    = if existsb (fun x => String.eqb x k && negb (delete_raises self x)) keys
      then None else redis_get (store w) k.
Proof.
  induction keys as [|key keys IH]; intros n w; simpl; [reflexivity|].
  destruct (delete_raises self key); rewrite IH; simpl.
  - rewrite andb_false_r. reflexivity.
  - rewrite andb_true_r, redis_get_clear.
    destruct (String.eqb key k); simpl; [|reflexivity].
    now destruct (existsb _ keys).
Qed.

Lemma delete_domain_mappings_calls (self : CacheReaper)
    (domain username repository : string) (w : World) :
  calls (delete_domain_mappings self domain username repository w)
  = ((if dry_run self then []
      else rev (map Delete (keys_to_delete domain username repository)))
     ++ calls w)%list.
Proof.
  unfold delete_domain_mappings. destruct (dry_run self); [reflexivity|].
  apply delete_keys_calls.
Qed.

Lemma delete_domain_mappings_dry (self : CacheReaper)
    (domain username repository : string) (w : World) :
  dry_run self = true ->
  delete_domain_mappings self domain username repository w = w.
Proof. unfold delete_domain_mappings. now intros ->. Qed.

(** ** One scanned key *)

Lemma parse_repo_mapping_nonempty (value : string) (p : string * string) :
  parse_repo_mapping value = Some p -> value <> "".
Proof. intros H ->. discriminate. Qed.

Lemma scan_and_clean_key_skip (self : CacheReaper) (key : string)
    (c : Counters) (w : World) :
  (redis_get (store w) key = None
   \/ redis_get (store w) key = Some ""
   \/ exists v, redis_get (store w) key = Some v /\ parse_repo_mapping v = None) ->
  scan_and_clean_key self key c w
  = (mkCounters (S (total_domains c)) (cleaned_domains c) (S (error_count c)),
     record (Get key) w).
Proof.
  unfold scan_and_clean_key.
  intros [-> | [-> | (v & -> & Hp)]]; try reflexivity.
  rewrite Hp. now destruct v.
Qed.

Lemma scan_and_clean_key_checked (self : CacheReaper)
    (key value username repository : string) (c : Counters) (w : World) :
  redis_get (store w) key = Some value ->
  parse_repo_mapping value = Some (username, repository) ->
  let w1 := record (HttpGet (pages_url self username repository))
              (record (Get key) w) in
  let exists_ :=
    match session_get self (pages_url self username repository) with
    | Response status_code => Z.eqb status_code 200
    | RequestException => true
    end in
  scan_and_clean_key self key c w
  = if exists_
    then (mkCounters (S (total_domains c)) (cleaned_domains c) (error_count c),
          w1)
    else (mkCounters (S (total_domains c)) (S (cleaned_domains c)) (error_count c),
          delete_domain_mappings self (slice_from 14 key) username repository w1).
Proof.
  intros Hg Hp. cbv zeta. unfold scan_and_clean_key. rewrite Hg.
  destruct value as [|a value]; [discriminate|].
  rewrite Hp. unfold has_pages_file.
  destruct (session_get self (pages_url self username repository)) as [code|];
    [destruct (Z.eqb code 200)|]; reflexivity.
Qed.

Lemma scan_and_clean_key_counts (self : CacheReaper) (key : string)
    (c : Counters) (w : World) :
  let c' := fst (scan_and_clean_key self key c w) in
  total_domains c' = S (total_domains c)
  /\ ((cleaned_domains c' = S (cleaned_domains c) /\ error_count c' = error_count c)
      \/ (cleaned_domains c' = cleaned_domains c /\ error_count c' = S (error_count c))
      \/ (cleaned_domains c' = cleaned_domains c /\ error_count c' = error_count c)).
Proof.
  cbv zeta. unfold scan_and_clean_key.
  destruct (redis_get (store w) key) as [[|a v]|]; simpl; auto.
  destruct (parse_repo_mapping (String a v)) as [[u r]|]; simpl; auto.
  destruct (has_pages_file self u r (record (Get key) w)) as [[] w1]; simpl; auto.
Qed.

(** What the loop body does with the status of a response.  On 200 the
    mapping is retained and neither the eviction nor the error counter
    moves.  On any other status the existence check answers false: the
    mapping is counted as evicted, the error counter is unchanged, and in
    normal mode a delete is issued for each of the eight keys, after which
    every key whose delete did not raise is absent from the store. *)
Theorem status_code_decides_eviction (self : CacheReaper)
    (key value username repository : string) (status : Z)
    (c : Counters) (w : World) :
  redis_get (store w) key = Some value ->
  parse_repo_mapping value = Some (username, repository) ->
  session_get self (pages_url self username repository) = Response status ->
  let w0 := record (Get key) w in
  let w1 := record (HttpGet (pages_url self username repository)) w0 in
  let keys := keys_to_delete (slice_from 14 key) username repository in
  let c' := fst (scan_and_clean_key self key c w) in
  let w' := snd (scan_and_clean_key self key c w) in
  fst (has_pages_file self username repository w0) = Z.eqb status 200
  /\ total_domains c' = S (total_domains c)
  /\ error_count c' = error_count c
  /\ (status = 200%Z -> cleaned_domains c' = cleaned_domains c /\ w' = w1)
  /\ (status <> 200%Z ->
      cleaned_domains c' = S (cleaned_domains c)
      /\ (dry_run self = true -> w' = w1)
      /\ (dry_run self = false ->
          calls w' = (rev (map Delete keys) ++ calls w1)%list
          /\ forall k, In k keys -> delete_raises self k = false ->
                       redis_get (store w') k = None)).
Proof.
  intros Hg Hp Hs. cbv zeta.
  rewrite (scan_and_clean_key_checked _ _ _ _ _ c w Hg Hp).
  unfold has_pages_file. rewrite Hs. split; [reflexivity|].
  destruct (Z.eqb_spec status 200) as [E|E]; simpl.
  - split; [reflexivity|]. split; [reflexivity|].
    split; [intros _; split; reflexivity | intros N; contradiction].
  - split; [reflexivity|]. split; [reflexivity|].
    split; [intros N; contradiction|]. intros _.
    split; [reflexivity|]. split.
    + intros Hd. apply delete_domain_mappings_dry. exact Hd.
    + intros Hd. split.
      * rewrite delete_domain_mappings_calls, Hd. reflexivity.
      * intros k Hk Hr. unfold delete_domain_mappings. rewrite Hd.
        rewrite delete_keys_get.
        replace (existsb _ _) with true; [reflexivity|].
        symmetry. apply existsb_exists. exists k. split; [exact Hk|].
        rewrite String.eqb_refl, Hr. reflexivity.
Qed.

Lemma status_code_decides_eviction_witness :
  let self := reaper_with (session_status 500) false in
  let w := mkWorld store_one [] in
  let r := scan_and_clean_key self "custom_domain:b.test" (mkCounters 0 0 0) w in
  cleaned_domains (fst r) = 1 /\ error_count (fst r) = 0
  /\ redis_get (store (snd r)) "custom_domain:b.test" = None.
Proof.
  cbv zeta.
  destruct (status_code_decides_eviction
              (reaper_with (session_status 500) false)
              "custom_domain:b.test" "carol:siteB" "carol" "siteB" 500
              (mkCounters 0 0 0) (mkWorld store_one [])
              eq_refl eq_refl eq_refl)
    as (_ & _ & He & _ & Hn).
  destruct (Hn ltac:(discriminate)) as (Hc & _ & Hd).
  destruct (Hd eq_refl) as (_ & Hgone).
  split; [exact Hc|]. split; [exact He|].
  apply Hgone; [left; reflexivity | reflexivity].
Defined.

(** C1: the code departs from the claim on a response that is neither 200
    nor a not-found.  On a 500 response the existence check answers false
    and the run evicts the mapping (summary (1, 1, 0), the forward entry
    gone), where the claim, and the check's own handling of a failed
    request, keep it. *)
Lemma server_error_is_evicted :
  fst (has_pages_file (reaper_with (session_status 500) false)
         "carol" "siteB" (mkWorld store_one [])) = false
  /\ option_map fst
       (scan_and_clean 1 (reaper_with (session_status 500) false)
          (mkWorld store_one []))
     = Some (1, 1, 0)
  /\ option_map (fun r => store (snd r))
       (scan_and_clean 1 (reaper_with (session_status 500) false)
          (mkWorld store_one []))
     = Some [None].
Proof. repeat split. Qed.

(** C2, as the code has it: when the request raises, the mapping is
    retained, no delete is issued and the store is unchanged, and neither
    the eviction counter nor the error counter moves: the failure is
    swallowed inside the existence check. *)
Theorem request_exception_retains (self : CacheReaper)
    (key value username repository : string) (c : Counters) (w : World) :
  redis_get (store w) key = Some value ->
  parse_repo_mapping value = Some (username, repository) ->
  session_get self (pages_url self username repository) = RequestException ->
  let c' := fst (scan_and_clean_key self key c w) in
  let w' := snd (scan_and_clean_key self key c w) in
  c' = mkCounters (S (total_domains c)) (cleaned_domains c) (error_count c)
  /\ store w' = store w
  /\ calls w'
     = HttpGet (pages_url self username repository) :: Get key :: calls w.
Proof.
  intros Hg Hp Hs. cbv zeta.
  rewrite (scan_and_clean_key_checked _ _ _ _ _ c w Hg Hp), Hs.
  repeat split.
Qed.

Lemma request_exception_retains_witness :
  let r := scan_and_clean_key (reaper_with session_timeout false)
             "custom_domain:b.test" (mkCounters 0 0 0) (mkWorld store_one []) in
  fst r = mkCounters 1 0 0 /\ store (snd r) = store_one.
Proof.
  cbv zeta.
  destruct (request_exception_retains (reaper_with session_timeout false)
              "custom_domain:b.test" "carol:siteB" "carol" "siteB"
              (mkCounters 0 0 0) (mkWorld store_one [])
              eq_refl eq_refl eq_refl)
    as (Hc & Hst & _).
  split; [exact Hc | exact Hst].
Defined.

(** C2 fails as stated: after a run in which the only existence check
    times out, the error counter is 0, not 1. *)
Lemma timeout_is_not_counted :
  option_map fst
    (scan_and_clean 1 (reaper_with session_timeout false) (mkWorld store_one []))
  = Some (1, 0, 0)
  /\ option_map fst
       (scan_and_clean 1 (reaper_with session_timeout false) (mkWorld store_one []))
     <> Some (1, 0, 1).
Proof. split; [reflexivity | discriminate]. Qed.

(** C7: a scanned key whose value is absent or empty, or does not parse,
    adds 1 to the error counter (and 1 to the keys seen, nothing to the
    evictions); the only call made for it is the GET of its value, so no
    delete is issued, the store is unchanged and the oracle is not asked;
    the scan goes on with the next key. *)
Theorem unusable_value_is_skipped (self : CacheReaper) (key : string)
    (keys : list string) (c : Counters) (w : World) :
  (redis_get (store w) key = None
   \/ redis_get (store w) key = Some ""
   \/ exists v, redis_get (store w) key = Some v /\ parse_repo_mapping v = None) ->
  let c' := fst (scan_and_clean_key self key c w) in
  let w' := snd (scan_and_clean_key self key c w) in
  error_count c' = S (error_count c)
  /\ cleaned_domains c' = cleaned_domains c
  /\ total_domains c' = S (total_domains c)
  /\ store w' = store w
  /\ calls w' = Get key :: calls w
  /\ scan_and_clean_keys self (key :: keys) c w
     = scan_and_clean_keys self keys c' w'.
Proof.
  intros H. cbv zeta. simpl scan_and_clean_keys.
  rewrite (scan_and_clean_key_skip self key c w H).
  repeat split.
Qed.

Lemma unusable_value_is_skipped_witness :
  let w := mkWorld [Some ("custom_domain:c.test", "")] [] in
  let r := scan_and_clean_key (reaper_with (session_status 404) false)
             "custom_domain:c.test" (mkCounters 0 0 0) w in
  error_count (fst r) = 1 /\ store (snd r) = store w
  /\ calls (snd r) = [Get "custom_domain:c.test"].
Proof.
  cbv zeta.
  destruct (unusable_value_is_skipped (reaper_with (session_status 404) false)
              "custom_domain:c.test" []
              (mkCounters 0 0 0)
              (mkWorld [Some ("custom_domain:c.test", "")] [])
              (or_intror (or_introl eq_refl)))
    as (He & _ & _ & Hst & Hc & _).
  split; [exact He|]. split; [exact Hst | exact Hc].
Defined.

(** C10: a value that begins or ends with ':' is parsed, with an empty
    owner or an empty repository, and the empty component is put into the
    URL of the existence check. *)
Theorem empty_component_is_accepted :
  parse_repo_mapping ":r" = Some ("", "r")
  /\ parse_repo_mapping "x:" = Some ("x", "")
  /\ (forall r, parse_repo_mapping (":" ++ r) = Some ("", r))
  /\ (forall x, contains_char ":" x = false ->
                parse_repo_mapping (x ++ ":") = Some (x, ""))
  /\ (forall self key r c w,
        redis_get (store w) key = Some (":" ++ r) ->
        In (HttpGet (forgejo_host self ++ "/api/v1/repos//" ++ r
                       ++ "/contents/.pages"))
           (calls (snd (scan_and_clean_key self key c w))))
  /\ (forall self key x c w,
        contains_char ":" x = false ->
        redis_get (store w) key = Some (x ++ ":") ->
        In (HttpGet (forgejo_host self ++ "/api/v1/repos/" ++ x
                       ++ "//contents/.pages"))
           (calls (snd (scan_and_clean_key self key c w)))).
Proof.
  assert (Hflow : forall self key value u r c w,
             redis_get (store w) key = Some value ->
             parse_repo_mapping value = Some (u, r) ->
             In (HttpGet (pages_url self u r))
                (calls (snd (scan_and_clean_key self key c w)))).
  { intros self key value u r c w Hg Hp.
    rewrite (scan_and_clean_key_checked _ _ _ _ _ c w Hg Hp).
    match goal with |- context [if ?b then _ else _] => destruct b end; simpl.
    - left. reflexivity.
    - rewrite delete_domain_mappings_calls. apply in_or_app. right.
      left. reflexivity. }
  assert (Hend : forall x, contains_char ":" x = false ->
                           parse_repo_mapping (x ++ ":") = Some (x, "")).
  { intros x Hx. unfold parse_repo_mapping.
    rewrite (split1_first ":" x "" Hx). reflexivity. }
  repeat split; try exact Hend.
  - intros self key r c w Hg.
    apply (Hflow self key _ "" r c w Hg). reflexivity.
  - intros self key x c w Hx Hg.
    apply (Hflow self key _ x "" c w Hg). apply Hend. exact Hx.
Qed.

Lemma empty_component_is_accepted_witness :
  parse_repo_mapping "x:" = Some ("x", "")
  /\ In (HttpGet "https://git.example.com/api/v1/repos//r/contents/.pages")
        (calls (snd (scan_and_clean_key (reaper_with (session_status 200) false)
                       "custom_domain:e.test" (mkCounters 0 0 0)
                       (mkWorld [Some ("custom_domain:e.test", ":r")] [])))).
Proof.
  destruct empty_component_is_accepted as (_ & _ & _ & Hend & Hown & _).
  split.
  - apply (Hend "x"). reflexivity.
  - apply (Hown (reaper_with (session_status 200) false)
             "custom_domain:e.test" "r" (mkCounters 0 0 0)
             (mkWorld [Some ("custom_domain:e.test", ":r")] [])).
    reflexivity.
Defined.

(** ** The forward keyspace *)

Lemma matching_keys_app (pattern : string) (a b : list slot) :
  matching_keys pattern (a ++ b)
  = (matching_keys pattern a ++ matching_keys pattern b)%list.
Proof.
  induction a as [|[[k v]|] a IH]; simpl; [reflexivity| |exact IH].
  destruct (glob_match pattern k); simpl; now rewrite IH.
Qed.

Lemma matching_keys_filter (pattern : string) (s : Store) :
  matching_keys pattern s = filter (glob_match pattern) (stored_keys s).
Proof.
  induction s as [|[[k v]|] s IH]; simpl; [reflexivity| |exact IH].
  destruct (glob_match pattern k); now rewrite IH.
Qed.

Lemma forward_keys_forward (l : list slot) (k : string) :
  In k (forward_keys l) -> is_forward k = true.
Proof.
  unfold forward_keys. rewrite matching_keys_filter. intros H.
  apply filter_In in H. exact (proj2 H).
Qed.

Lemma forward_keys_page (count : nat) (l : list slot) :
  (forward_keys (firstn count l) ++ forward_keys (skipn count l))%list
  = forward_keys l.
Proof.
  unfold forward_keys. rewrite <- matching_keys_app, firstn_skipn.
  reflexivity.
Qed.

Lemma store_wf_forward_keys (s : Store) :
  store_wf s -> NoDup (forward_keys s).
Proof.
  unfold store_wf, forward_keys. intros H. rewrite matching_keys_filter.
  apply NoDup_filter. exact H.
Qed.

Lemma glob_match_literal (p : ascii) (pattern key : string) :
  Ascii.eqb p "*" = false ->
  glob_match (String p pattern) key
  = match key with
    | EmptyString => false
    | String c key' => Ascii.eqb p c && glob_match pattern key'
    end.
Proof. intros H. cbn [glob_match]. rewrite H. reflexivity. Qed.

Lemma glob_match_star (key : string) : glob_match "*" key = true.
Proof.
  induction key as [|c key IH]; [reflexivity|].
  cbn in *. exact IH.
Qed.

Lemma glob_literal_strip (lit : string) :
  contains_char "*" lit = false ->
  forall key, glob_match (lit ++ "*") key = true ->
              lit ++ slice_from (String.length lit) key = key.
Proof.
  induction lit as [|p lit IH]; intros Hl key H; [reflexivity|].
  cbn [contains_char] in Hl. apply orb_false_iff in Hl as [Hp Hl].
  cbn [append] in H. rewrite (glob_match_literal _ _ _ Hp) in H.
  destruct key as [|c key]; [discriminate|].
  apply andb_true_iff in H as [Hc H]. apply Ascii.eqb_eq in Hc. subst c.
  cbn [append String.length slice_from]. f_equal. apply IH; assumption.
Qed.

Lemma glob_literal_prefix (lit : string) :
  contains_char "*" lit = false ->
  forall rest, glob_match (lit ++ "*") (lit ++ rest) = true.
Proof.
  induction lit as [|p lit IH]; intros Hl rest.
  - apply glob_match_star.
  - cbn [contains_char] in Hl. apply orb_false_iff in Hl as [Hp Hl].
    cbn [append]. rewrite (glob_match_literal _ _ _ Hp).
    rewrite Ascii.eqb_refl. apply IH. exact Hl.
Qed.

Lemma is_forward_strip (key : string) :
  is_forward key = true -> "custom_domain:" ++ slice_from 14 key = key.
Proof. intros H. exact (glob_literal_strip "custom_domain:" eq_refl key H). Qed.

Lemma is_forward_iff (key : string) :
  is_forward key = true <-> exists domain, key = "custom_domain:" ++ domain.
Proof.
  split.
  - intros H. exists (slice_from 14 key). symmetry. now apply is_forward_strip.
  - intros [domain ->]. exact (glob_literal_prefix "custom_domain:" eq_refl domain).
Qed.

Lemma redis_get_In (s : Store) (k v : string) :
  redis_get s k = Some v -> In (Some (k, v)) s.
Proof.
  induction s as [|[[k0 v0]|] s IH]; simpl; intros H; [discriminate| |auto].
  destruct (String.eqb k0 k) eqn:Hk; [|auto].
  apply String.eqb_eq in Hk. injection H as ->. subst. now left.
Qed.

(** ** The scan: counters *)

Lemma scan_and_clean_keys_total (self : CacheReaper) (keys : list string) :
  forall c w,
    total_domains (fst (scan_and_clean_keys self keys c w))
    = total_domains c + length keys.
Proof.
  induction keys as [|key keys IH]; intros c w; simpl; [lia|].
  pose proof (scan_and_clean_key_counts self key c w) as [Ht _].
  destruct (scan_and_clean_key self key c w) as [c1 w1]. simpl in Ht.
  rewrite IH, Ht. lia.
Qed.

Lemma scan_and_clean_key_ok (self : CacheReaper) (key : string)
    (c : Counters) (w : World) :
  counters_ok c -> counters_ok (fst (scan_and_clean_key self key c w)).
Proof.
  unfold counters_ok. intros H.
  pose proof (scan_and_clean_key_counts self key c w) as [Ht Hce].
  cbv zeta in Ht, Hce. lia.
Qed.

Lemma scan_and_clean_keys_ok (self : CacheReaper) (keys : list string) :
  forall c w,
    counters_ok c -> counters_ok (fst (scan_and_clean_keys self keys c w)).
Proof.
  induction keys as [|key keys IH]; intros c w H; simpl; [exact H|].
  pose proof (scan_and_clean_key_ok self key c w H) as H1.
  destruct (scan_and_clean_key self key c w) as [c1 w1]. apply IH. exact H1.
Qed.

Lemma scan_and_clean_loop_ok (self : CacheReaper) (count : nat) (fuel : nat) :
  forall cursor c w c' w',
    counters_ok c ->
    scan_and_clean_loop fuel self count cursor c w = Some (c', w') ->
    counters_ok c'.
Proof.
  induction fuel as [|fuel IH]; intros cursor c w c' w' H E; [discriminate|].
  cbn [scan_and_clean_loop] in E.
  destruct (redis_scan (store w) cursor "custom_domain:*" count) as [next keys].
  pose proof (scan_and_clean_keys_ok self keys c
                (record (Scan cursor "custom_domain:*" count) w) H) as H1.
  destruct (scan_and_clean_keys self keys c _) as [c1 w1].
  destruct (next =? 0)%nat.
  - injection E as <- <-. exact H1.
  - exact (IH _ _ _ _ _ H1 E).
Qed.

(** ** The scan: dry run *)

Lemma scan_and_clean_key_dry (self : CacheReaper) (key : string)
    (c : Counters) (w : World) :
  dry_run self = true ->
  store (snd (scan_and_clean_key self key c w)) = store w
  /\ filter is_delete (calls (snd (scan_and_clean_key self key c w)))
     = filter is_delete (calls w).
Proof.
  intros Hd. unfold scan_and_clean_key.
  destruct (redis_get (store w) key) as [[|a v]|]; [now split| |now split].
  destruct (parse_repo_mapping (String a v)) as [[u r]|]; [|now split].
  unfold has_pages_file.
  destruct (session_get self (pages_url self u r)) as [code|];
    [destruct (Z.eqb code 200)|]; cbn [negb fst snd];
    rewrite ?(delete_domain_mappings_dry _ _ _ _ _ Hd); now split.
Qed.

Lemma scan_and_clean_keys_dry (self : CacheReaper) (keys : list string) :
  dry_run self = true ->
  forall c w,
    store (snd (scan_and_clean_keys self keys c w)) = store w
    /\ filter is_delete (calls (snd (scan_and_clean_keys self keys c w)))
       = filter is_delete (calls w).
Proof.
  intros Hd. induction keys as [|key keys IH]; intros c w; simpl; [now split|].
  pose proof (scan_and_clean_key_dry self key c w Hd) as [Hs Hc].
  destruct (scan_and_clean_key self key c w) as [c1 w1]. simpl in Hs, Hc.
  destruct (IH c1 w1) as [Hs1 Hc1]. rewrite Hs1, Hc1. now split.
Qed.

(** In a dry run the loop comes back to cursor 0 within the fuel, leaves
    the store as it was, issues no delete, and has seen every forward key
    from the cursor on. *)
Lemma scan_and_clean_loop_dry (self : CacheReaper) (count : nat) (fuel : nat) :
  dry_run self = true -> 0 < count ->
  forall cursor c w,
    length (store w) - cursor < fuel ->
    exists c' w',
      scan_and_clean_loop fuel self count cursor c w = Some (c', w')
      /\ store w' = store w
      /\ filter is_delete (calls w') = filter is_delete (calls w)
      /\ total_domains c'
         = total_domains c + length (forward_keys (skipn cursor (store w))).
Proof.
  intros Hd Hc. induction fuel as [|fuel IH]; intros cursor c w Hf; [lia|].
  cbn [scan_and_clean_loop]. unfold redis_scan.
  set (w0 := record (Scan cursor "custom_domain:*" count) w).
  pose proof (scan_and_clean_keys_dry self
                (matching_keys "custom_domain:*"
                   (firstn count (skipn cursor (store w)))) Hd c w0) as [Hs Hk].
  pose proof (scan_and_clean_keys_total self
                (matching_keys "custom_domain:*"
                   (firstn count (skipn cursor (store w)))) c w0) as Ht.
  destruct (scan_and_clean_keys self _ c w0) as [c1 w1].
  cbn [fst snd] in Hs, Hk, Ht.
  destruct (cursor + count <? length (store w))%nat eqn:Hn.
  - apply Nat.ltb_lt in Hn.
    replace (cursor + count =? 0)%nat with false
      by (symmetry; apply Nat.eqb_neq; lia).
    destruct (IH (cursor + count) c1 w1) as (c' & w' & E & Hs' & Hk' & Ht').
    { rewrite Hs. cbn [w0 record store]. lia. }
    exists c', w'. split; [exact E|].
    split; [now rewrite Hs', Hs|].
    split; [now rewrite Hk', Hk|].
    rewrite Ht', Ht, Hs. cbn [w0 record store].
    rewrite <- (forward_keys_page count (skipn cursor (store w))).
    rewrite length_app, skipn_skipn, (Nat.add_comm count cursor).
    unfold forward_keys. lia.
  - apply Nat.ltb_ge in Hn. cbn [Nat.eqb].
    exists c1, w1. split; [reflexivity|].
    split; [exact Hs|]. split; [exact Hk|].
    rewrite Ht, firstn_all2; [reflexivity|].
    rewrite length_skipn. lia.
Qed.

(** ** The run *)

Lemma with_dry_run_same (self : CacheReaper) :
  with_dry_run (dry_run self) self = self.
Proof. now destruct self. Qed.

(** C3 fails as stated: on two mappings owned by the user [custom_domain],
    each one's reverse key being the other's forward key, the dry run
    reports (2, 2, 0) and the normal run (2, 1, 1): evicting the first
    mapping deletes the second one's forward entry before it is read. *)
Lemma crossed_mappings_change_summary :
  option_map fst
    (scan_and_clean 1 (reaper_with (session_status 404) true)
       (mkWorld store_crossed []))
  = Some (2, 2, 0)
  /\ option_map fst
       (scan_and_clean 1 (reaper_with (session_status 404) false)
          (mkWorld store_crossed []))
     = Some (2, 1, 1).
Proof. split; reflexivity. Qed.

(** C8 fails as stated: with the crossed mappings a normal run sees two
    keys with page size 100 and one key with page size 1; and with the two
    mappings more than a page apart the source's own page size of 100 sees
    one key of the two in the store. *)
Lemma page_size_changes_total :
  length (forward_keys store_crossed) = 2
  /\ option_map fst
       (scan_and_clean_paged 3 100 (reaper_with (session_status 404) false)
          (mkWorld store_crossed []))
     = Some (2, 1, 1)
  /\ option_map fst
       (scan_and_clean_paged 3 1 (reaper_with (session_status 404) false)
          (mkWorld store_crossed []))
     = Some (1, 1, 0)
  /\ length (forward_keys store_crossed_far) = 2
  /\ option_map fst
       (scan_and_clean 3 (reaper_with (session_status 404) false)
          (mkWorld store_crossed_far []))
     = Some (1, 1, 0).
Proof. repeat split; vm_compute; reflexivity. Qed.

(** C9: each scanned key adds one to the keys seen and at most one to
    exactly one of the evictions and the errors; hence evictions + errors
    <= keys seen holds after every key, after every page, and in the
    summary the run returns. *)
Theorem evicted_plus_errors_le_seen :
  (forall self key c w,
     let c' := fst (scan_and_clean_key self key c w) in
     total_domains c' = S (total_domains c)
     /\ ((cleaned_domains c' = S (cleaned_domains c)
          /\ error_count c' = error_count c)
         \/ (cleaned_domains c' = cleaned_domains c
             /\ error_count c' = S (error_count c))
         \/ (cleaned_domains c' = cleaned_domains c
             /\ error_count c' = error_count c)))
  /\ (forall self keys c w,
        counters_ok c -> counters_ok (fst (scan_and_clean_keys self keys c w)))
  /\ (forall fuel self count cursor c w c' w',
        counters_ok c ->
        scan_and_clean_loop fuel self count cursor c w = Some (c', w') ->
        counters_ok c')
  /\ (forall fuel count self w total cleaned errors w',
        scan_and_clean_paged fuel count self w
        = Some ((total, cleaned, errors), w') ->
        cleaned + errors <= total).
Proof.
  split; [exact scan_and_clean_key_counts|].
  split; [exact scan_and_clean_keys_ok|].
  split.
  - intros fuel self count cursor c w c' w'.
    apply scan_and_clean_loop_ok.
  - intros fuel count self w total cleaned errors w' E.
    unfold scan_and_clean_paged in E.
    destruct (scan_and_clean_loop fuel self count 0 (mkCounters 0 0 0) w)
      as [[c wf]|] eqn:El; [|discriminate].
    injection E as <- <- <- <-.
    apply (scan_and_clean_loop_ok self count fuel 0 (mkCounters 0 0 0) w c wf);
      [unfold counters_ok; simpl; lia | exact El].
Qed.

Lemma evicted_plus_errors_le_seen_witness :
  match scan_and_clean_paged 1 100 (reaper_with (session_status 404) false)
          (mkWorld store_crossed []) with
  | Some ((total, cleaned, errors), _) => cleaned + errors <= total
  | None => False
  end.
Proof.
  destruct evicted_plus_errors_le_seen as (_ & _ & _ & H).
  destruct (scan_and_clean_paged 1 100 (reaper_with (session_status 404) false)
              (mkWorld store_crossed []))
    as [[[[total cleaned] errors] w']|] eqn:E.
  - exact (H _ _ _ _ _ _ _ _ E).
  - vm_compute in E. discriminate E.
Defined.

(** * Further properties of the program *)

(** ** Parsing and key derivation *)

Lemma split1_head_clean (sep : ascii) (s p0 p1 : string) :
  split1 sep s = [p0; p1] -> contains_char sep p0 = false.
Proof.
  revert p0. induction s as [|c s IH]; simpl; intros p0 H; [discriminate|].
  destruct (Ascii.eqb c sep) eqn:Hc.
  - injection H as <- <-. reflexivity.
  - destruct (split1 sep s) as [|h t] eqn:Hs; [discriminate|].
    injection H as <- ->. simpl. rewrite Hc. apply IH. reflexivity.
Qed.

(** X1: parsing and joining are inverse to each other.  A value parses to
    (username, repository) exactly when it is username ++ ":" ++ repository
    and the username has no ':'; the repository may hold any number of
    them. *)
Theorem parse_repo_mapping_round_trip (value username repository : string) :
  parse_repo_mapping value = Some (username, repository)
  <-> (value = username ++ ":" ++ repository
       /\ contains_char ":" username = false).
Proof.
  split.
  - intros H. split.
    + symmetry. apply (parse_repo_mapping_rejoin _ _ _ H).
    + unfold parse_repo_mapping in H.
      destruct (split1 ":" value) as [|p0 [|p1 [|p2 t]]] eqn:Hs;
        try discriminate.
      injection H as <- <-. apply (split1_head_clean _ _ _ _ Hs).
  - intros [-> Hu]. unfold parse_repo_mapping.
    change (username ++ ":" ++ repository)
      with (username ++ String ":" repository).
    rewrite (split1_first _ _ _ Hu). reflexivity.
Qed.

(** X2: for a scanned key of the forward keyspace whose value parses, the
    first two keys submitted for deletion are the scanned key itself and
    the stored value itself: the reverse key is the value, unprefixed. *)
Theorem eviction_targets_key_and_value
    (key value username repository : string) :
  is_forward key = true ->
  parse_repo_mapping value = Some (username, repository) ->
  firstn 2 (keys_to_delete (slice_from 14 key) username repository)
  = [key; value].
Proof.
  intros Hk Hp. unfold keys_to_delete. cbn [app firstn].
  rewrite (is_forward_strip key Hk), (parse_repo_mapping_rejoin _ _ _ Hp).
  reflexivity.
Qed.

Lemma eviction_targets_key_and_value_witness :
  firstn 2 (keys_to_delete (slice_from 14 "custom_domain:b.test")
              "carol" "siteB")
  = ["custom_domain:b.test"; "carol:siteB"].
Proof.
  apply (eviction_targets_key_and_value
           "custom_domain:b.test" "carol:siteB" "carol" "siteB");
    reflexivity.
Defined.

(** ** Sanitization *)

Lemma sanitize_as_map (x : string) :
  sanitize_domain_name x = join_map sanitize_char x.
Proof.
  induction x as [|c x IH]; [reflexivity|].
  rewrite sanitize_domain_name_cons, IH. reflexivity.
Qed.

Lemma join_map_app (f : ascii -> ascii) (a b : string) :
  join_map f (a ++ b) = join_map f a ++ join_map f b.
Proof. induction a as [|c a IH]; simpl; [reflexivity | now rewrite IH]. Qed.

Lemma sanitize_char_router (c : ascii) : router_char (sanitize_char c) = true.
Proof. destruct c as [[] [] [] [] [] [] [] []]; reflexivity. Qed.

Lemma sanitize_char_fixed (c : ascii) :
  sanitize_char c = c <-> router_char c = true.
Proof.
  destruct c as [[] [] [] [] [] [] [] []]; vm_compute; split; intros H;
    try reflexivity; discriminate H.
Qed.

(** X3: a sanitized name has the length of the domain and consists of
    alphanumeric characters and '-' only. *)
Theorem sanitize_domain_name_alphabet (domain : string) :
  String.length (sanitize_domain_name domain) = String.length domain
  /\ string_forall router_char (sanitize_domain_name domain) = true.
Proof.
  rewrite sanitize_as_map.
  induction domain as [|c x [IHl IHf]]; [split; reflexivity|].
  cbn [join_map String.length string_forall].
  rewrite IHl, IHf, sanitize_char_router. split; reflexivity.
Qed.

(** X4: the names that sanitization leaves unchanged are exactly those
    made of alphanumeric characters and '-'; case is kept. *)
Theorem sanitize_domain_name_fixed_points (domain : string) :
  sanitize_domain_name domain = domain
  <-> string_forall router_char domain = true.
Proof.
  rewrite sanitize_as_map.
  induction domain as [|c x IH]; [split; reflexivity|].
  cbn [join_map string_forall]. rewrite andb_true_iff, <- IH.
  rewrite <- sanitize_char_fixed. split.
  - intros H. injection H as Hc Hx. split; assumption.
  - intros [Hc Hx]. rewrite Hc, Hx. reflexivity.
Qed.

(** X5: sanitization works character by character, so it commutes with
    concatenation, and it does not tell '.', '_' and '-' apart: two domains
    that differ only in these separators get the same six routing keys. *)
Theorem sanitize_domain_name_merges_separators :
  (forall a b,
     sanitize_domain_name (a ++ b)
     = sanitize_domain_name a ++ sanitize_domain_name b)
  /\ (forall a b,
        sanitize_domain_name (a ++ "." ++ b) = sanitize_domain_name (a ++ "-" ++ b)
        /\ sanitize_domain_name (a ++ "_" ++ b) = sanitize_domain_name (a ++ "-" ++ b))
  /\ (forall d1 u1 r1 d2 u2 r2,
        sanitize_domain_name d1 = sanitize_domain_name d2 ->
        skipn 2 (keys_to_delete d1 u1 r1) = skipn 2 (keys_to_delete d2 u2 r2)).
Proof.
  assert (Happ : forall a b,
             sanitize_domain_name (a ++ b)
             = sanitize_domain_name a ++ sanitize_domain_name b).
  { intros a b. rewrite !sanitize_as_map. apply join_map_app. }
  split; [exact Happ|]. split.
  - intros a b. rewrite !Happ. split; reflexivity.
  - intros d1 u1 r1 d2 u2 r2 H. unfold keys_to_delete. cbn [app skipn].
    rewrite H. reflexivity.
Qed.

Lemma sanitize_domain_name_merges_separators_witness :
  skipn 2 (keys_to_delete "my.site" "alice" "one")
  = skipn 2 (keys_to_delete "my-site" "bob" "two").
Proof.
  destruct sanitize_domain_name_merges_separators as (_ & _ & H).
  apply (H "my.site" "alice" "one" "my-site" "bob" "two"). reflexivity.
Defined.

(** ** The host URL *)

Lemma rstrip_slash_shape (s : string) :
  exists n, s = rstrip_slash s ++ slashes n
            /\ ends_with_slash (rstrip_slash s) = false.
Proof.
  induction s as [|c s (n & Hs & He)]; [exists 0; split; reflexivity|].
  cbn [rstrip_slash].
  destruct (rstrip_slash s) as [|a r] eqn:Hr.
  - destruct (Ascii.eqb c "/") eqn:Hc.
    + apply Ascii.eqb_eq in Hc. subst c. exists (S n).
      split; [|reflexivity]. simpl in *. now rewrite Hs at 1.
    + exists n. split; [|simpl; exact Hc]. simpl in *. now rewrite Hs at 1.
  - exists n. split; [|exact He]. cbn [append]. now rewrite Hs at 1.
Qed.

Lemma rstrip_slash_append (s : string) :
  rstrip_slash (s ++ "/") = rstrip_slash s.
Proof.
  induction s as [|c s IH]; [reflexivity|].
  cbn [append rstrip_slash]. rewrite IH. reflexivity.
Qed.

(** X6: the host the reaper keeps is the given host without its trailing
    slashes: it does not end in '/', the given host is it followed by
    slashes only, and one more trailing slash on the command line changes
    nothing. *)
Theorem init_strips_trailing_slashes (host : string) (dry : bool)
    (session : string -> HttpResult) (raises : string -> bool) :
  ends_with_slash (forgejo_host (init host dry session raises)) = false
  /\ (exists n, host = forgejo_host (init host dry session raises) ++ slashes n)
  /\ init (host ++ "/") dry session raises = init host dry session raises.
Proof.
  unfold init. cbn [forgejo_host].
  destruct (rstrip_slash_shape host) as (n & Hs & He).
  split; [exact He|]. split; [now exists n|].
  rewrite rstrip_slash_append. reflexivity.
Qed.

(** ** Deleting the keys of a mapping *)

Lemma clear_slot_keys (x : string) (gone : list string) (sl : slot) :
  clear_slot x (clear_keys gone sl) = clear_keys (gone ++ [x]) sl.
Proof.
  destruct sl as [[k v]|]; [|reflexivity]. cbn [clear_keys].
  rewrite existsb_app. cbn [existsb]. rewrite orb_false_r.
  destruct (existsb (String.eqb k) gone); [reflexivity|].
  cbn [clear_slot orb]. reflexivity.
Qed.

Lemma clear_keys_nil (s : Store) : map (clear_keys []) s = s.
Proof.
  induction s as [|[[k v]|] s IH]; cbn [map clear_keys existsb];
    now rewrite ?IH.
Qed.

Lemma clear_keys_app (a b : list string) (s : Store) :
  map (clear_keys b) (map (clear_keys a) s) = map (clear_keys (a ++ b)) s.
Proof.
  rewrite map_map. apply map_ext. intros [[k v]|]; [|reflexivity].
  cbn [clear_keys]. rewrite existsb_app.
  destruct (existsb (String.eqb k) a); [reflexivity|].
  cbn [clear_keys orb]. reflexivity.
Qed.

(** The store after the delete loop: the buckets of the keys whose delete
    did not raise are empty, every other bucket is as it was. *)
Lemma delete_keys_store (self : CacheReaper) (keys : list string) :
  forall n w,
    store (snd (delete_keys self keys n w))
    = map (clear_keys (filter (fun k => negb (delete_raises self k)) keys))
        (store w).
Proof.
  induction keys as [|key keys IH]; intros n w; cbn [delete_keys filter].
  - cbn [snd]. now rewrite clear_keys_nil.
  - destruct (delete_raises self key);
      cbn [negb redis_delete record store calls]; rewrite IH.
    + reflexivity.
    + cbn [store].
      change (key :: filter (fun k => negb (delete_raises self k)) keys)
        with ([key] ++ filter (fun k => negb (delete_raises self k)) keys)%list.
      rewrite <- clear_keys_app. f_equal.
      apply map_ext. intros [[k v]|]; [|reflexivity].
      cbn [clear_slot clear_keys existsb]. rewrite orb_false_r. reflexivity.
Qed.

Lemma delete_domain_mappings_store (self : CacheReaper)
    (domain username repository : string) (w : World) :
  store (delete_domain_mappings self domain username repository w)
  = map (clear_keys
           (if dry_run self then []
            else filter (fun k => negb (delete_raises self k))
                   (keys_to_delete domain username repository)))
      (store w).
Proof.
  unfold delete_domain_mappings. destruct (dry_run self).
  - now rewrite clear_keys_nil.
  - apply delete_keys_store.
Qed.

(** X7: an eviction touches the eight keys of the mapping and nothing
    else: every other key keeps its value, and so does a key of the eight
    whose delete raised; the number of buckets does not change, and in a
    dry run the state is returned as it was given. *)
Theorem eviction_leaves_other_keys (self : CacheReaper)
    (domain username repository : string) (w : World) :
  let w' := delete_domain_mappings self domain username repository w in
  (forall k,
     ~ In k (keys_to_delete domain username repository)
     \/ delete_raises self k = true ->
     redis_get (store w') k = redis_get (store w) k)
  /\ length (store w') = length (store w)
  /\ (dry_run self = true -> w' = w).
Proof.
  cbv zeta. split; [|split].
  - intros k Hk. unfold delete_domain_mappings.
    destruct (dry_run self); [reflexivity|]. rewrite delete_keys_get.
    destruct (existsb _ _) eqn:E; [|reflexivity].
    apply existsb_exists in E as (x & Hx & Hxk).
    apply andb_true_iff in Hxk as [Heq Hr].
    apply String.eqb_eq in Heq. subst x.
    destruct Hk as [Hk | Hk]; [contradiction|].
    rewrite Hk in Hr. discriminate.
  - rewrite delete_domain_mappings_store. apply length_map.
  - apply delete_domain_mappings_dry.
Qed.

(** X8: evicting a mapping twice leaves the store as evicting it once,
    and the second pass of the delete loop counts no deleted key. *)
Theorem eviction_is_idempotent (self : CacheReaper)
    (domain username repository : string) (w : World) :
  let w1 := delete_domain_mappings self domain username repository w in
  let w2 := delete_domain_mappings self domain username repository w1 in
  store w2 = store w1
  /\ forall n,
       fst (delete_keys self (keys_to_delete domain username repository) 0
              (snd (delete_keys self
                      (keys_to_delete domain username repository) n w)))
       = 0.
Proof.
  cbv zeta. split.
  - rewrite !delete_domain_mappings_store, clear_keys_app.
    apply map_ext. intros [[k v]|]; [|reflexivity].
    cbn [clear_keys]. rewrite existsb_app.
    now destruct (existsb (String.eqb k) _).
  - intros n.
    set (keys := keys_to_delete domain username repository).
    set (w1 := snd (delete_keys self keys n w)).
    assert (Hgone : forall k, In k keys -> delete_raises self k = false ->
                              redis_get (store w1) k = None).
    { intros k Hk Hr. unfold w1. rewrite delete_keys_get.
      replace (existsb _ keys) with true; [reflexivity|].
      symmetry. apply existsb_exists. exists k. split; [exact Hk|].
      now rewrite String.eqb_refl, Hr. }
    clearbody w1. revert w1 Hgone.
    induction keys as [|key keys IH]; intros w1 Hgone; [reflexivity|].
    cbn [delete_keys].
    destruct (delete_raises self key) eqn:Hr.
    + apply IH. intros k Hk Hrk. apply Hgone; [now right | exact Hrk].
    + cbn [redis_delete record store calls].
      rewrite (Hgone key (or_introl eq_refl) Hr). cbn [Nat.ltb Nat.leb].
      apply IH. intros k Hk Hrk. cbn [store].
      rewrite redis_get_clear. destruct (String.eqb key k); [reflexivity|].
      apply Hgone; [now right | exact Hrk].
Qed.

(** ** The count of deleted keys *)

Lemma stored_keys_clear (x : string) (s : Store) :
  stored_keys (map (clear_slot x) s)
  = filter (fun k => negb (String.eqb k x)) (stored_keys s).
Proof.
  induction s as [|[[k v]|] s IH]; cbn [map clear_slot stored_keys filter];
    [reflexivity| |exact IH].
  destruct (String.eqb k x); cbn [negb stored_keys]; now rewrite IH.
Qed.

Lemma redis_get_absent (s : Store) (k : string) :
  redis_get s k = None <-> ~ In k (stored_keys s).
Proof.
  induction s as [|[[k0 v0]|] s IH]; cbn [redis_get stored_keys];
    [tauto| |exact IH].
  destruct (String.eqb k0 k) eqn:E.
  - apply String.eqb_eq in E. subst. split; [discriminate|].
    intros H. exfalso. apply H. now left.
  - apply String.eqb_neq in E. rewrite IH. cbn [In]. tauto.
Qed.

Lemma filter_out_absent (x : string) (l : list string) :
  ~ In x l -> filter (fun k => negb (String.eqb k x)) l = l.
Proof.
  induction l as [|a l IH]; intros H; [reflexivity|]. cbn [filter].
  destruct (String.eqb a x) eqn:E.
  - apply String.eqb_eq in E. subst. exfalso. apply H. now left.
  - cbn [negb]. rewrite IH; [reflexivity|]. intros Hin. apply H. now right.
Qed.

Lemma filter_out_present (x : string) (l : list string) :
  NoDup l -> In x l ->
  S (length (filter (fun k => negb (String.eqb k x)) l)) = length l.
Proof.
  induction l as [|a l IH]; intros Hnd Hin; [contradiction|].
  apply NoDup_cons_iff in Hnd as [Ha Hnd]. cbn [filter].
  destruct (String.eqb a x) eqn:E.
  - apply String.eqb_eq in E. subst. cbn [negb length].
    now rewrite filter_out_absent.
  - apply String.eqb_neq in E. destruct Hin as [Hin|Hin]; [contradiction|].
    cbn [negb length]. now rewrite IH.
Qed.

Lemma store_wf_clear (x : string) (s : Store) :
  store_wf s -> store_wf (map (clear_slot x) s).
Proof.
  unfold store_wf. rewrite stored_keys_clear. apply NoDup_filter.
Qed.

Lemma delete_keys_count (self : CacheReaper) (keys : list string) :
  forall n w,
    store_wf (store w) ->
    fst (delete_keys self keys n w)
    + occupied (store (snd (delete_keys self keys n w)))
    = n + occupied (store w)
    /\ store_wf (store (snd (delete_keys self keys n w))).
Proof.
  induction keys as [|key keys IH]; intros n w Hwf; cbn [delete_keys];
    [now split|].
  destruct (delete_raises self key);
    cbn [redis_delete record store calls];
    [exact (IH n (record (Delete key) w) Hwf)|].
  set (w1 := mkWorld (map (clear_slot key) (store w)) (Delete key :: calls w)).
  destruct (IH (if (0 <? match redis_get (store w) key with
                          | Some _ => 1 | None => 0 end)%nat
                then S n else n) w1) as [Hc Hw].
  { cbn [w1 store]. now apply store_wf_clear. }
  split; [|exact Hw]. rewrite Hc. cbn [w1 store]. unfold occupied.
  rewrite stored_keys_clear.
  destruct (redis_get (store w) key) as [v|] eqn:Hg.
  - cbn [Nat.ltb Nat.leb].
    rewrite <- (filter_out_present key (stored_keys (store w)) Hwf); [lia|].
    destruct (in_dec string_dec key (stored_keys (store w))) as [Hin|Hin];
      [exact Hin|].
    apply redis_get_absent in Hin. rewrite Hin in Hg. discriminate.
  - cbn [Nat.ltb Nat.leb]. apply redis_get_absent in Hg.
    now rewrite filter_out_absent.
Qed.

Lemma delete_keys_bound (self : CacheReaper) (keys : list string) :
  forall n w, fst (delete_keys self keys n w) <= n + length keys.
Proof.
  induction keys as [|key keys IH]; intros n w; cbn [delete_keys length];
    [cbn [fst]; lia|].
  destruct (delete_raises self key).
  - specialize (IH n (record (Delete key) w)). lia.
  - cbn [redis_delete record store calls].
    match goal with
    | |- fst (delete_keys _ _ ?m ?w1) <= _ =>
        specialize (IH m w1); assert (m <= S n) by (destruct (0 <? _)%nat; lia)
    end.
    lia.
Qed.

(** X9: on a store that holds no key twice, the count the delete loop
    reports for a mapping is the number of entries it removed from the
    store; it is at most 8, and the store still holds no key twice. *)
Theorem deleted_count_is_entries_removed (self : CacheReaper)
    (domain username repository : string) (w : World) :
  store_wf (store w) ->
  let r := delete_keys self (keys_to_delete domain username repository) 0 w in
  fst r = occupied (store w) - occupied (store (snd r))
  /\ fst r <= 8
  /\ store_wf (store (snd r)).
Proof.
  intros Hwf. cbv zeta.
  destruct (delete_keys_count self
              (keys_to_delete domain username repository) 0 w Hwf) as [Hc Hw].
  pose proof (delete_keys_bound self
                (keys_to_delete domain username repository) 0 w) as Hb.
  split; [lia|]. split; [exact Hb | exact Hw].
Qed.

Lemma deleted_count_is_entries_removed_witness :
  fst (delete_keys (reaper_with (session_status 404) false)
         (keys_to_delete "b.test" "carol" "siteB") 0
         (mkWorld (Some ("carol:siteB", "b.test") :: store_one) []))
  = 2.
Proof.
  destruct (deleted_count_is_entries_removed
              (reaper_with (session_status 404) false)
              "b.test" "carol" "siteB"
              (mkWorld (Some ("carol:siteB", "b.test") :: store_one) []))
    as (Hc & _ & _).
  - repeat constructor; simpl; intuition discriminate.
  - rewrite Hc. reflexivity.
Defined.

(** ** What a run does to the store *)

Lemma redis_get_clear_keys (gone : list string) (s : Store) (k : string) :
  redis_get (map (clear_keys gone) s) k
  = if existsb (String.eqb k) gone then None else redis_get s k.
Proof.
  induction s as [|[[k0 v0]|] s IH]; cbn [map clear_keys redis_get].
  - now destruct (existsb _ gone).
  - destruct (existsb (String.eqb k0) gone) eqn:E0.
    + rewrite IH. destruct (String.eqb k0 k) eqn:E; [|reflexivity].
      apply String.eqb_eq in E. subst. now rewrite E0.
    + cbn [redis_get]. destruct (String.eqb k0 k) eqn:E; [|exact IH].
      apply String.eqb_eq in E. subst. now rewrite E0.
  - exact IH.
Qed.

Lemma deleted_keys_app (self : CacheReaper) (a b : list Call) :
  deleted_keys self (a ++ b)
  = (deleted_keys self a ++ deleted_keys self b)%list.
Proof.
  induction a as [|[| |k|] a IH]; cbn [app deleted_keys]; try exact IH;
    [reflexivity|].
  destruct (delete_raises self k); cbn [app]; now rewrite IH.
Qed.

Lemma deleted_keys_rev_map (self : CacheReaper) (keys : list string) (k : string) :
  existsb (String.eqb k) (deleted_keys self (rev (map Delete keys)))
  = existsb (String.eqb k) (filter (fun x => negb (delete_raises self x)) keys).
Proof.
  induction keys as [|key keys IH]; [reflexivity|].
  cbn [map rev filter]. rewrite deleted_keys_app, existsb_app, IH.
  cbn [deleted_keys].
  destruct (delete_raises self key); cbn [negb existsb];
    [apply orb_false_r|].
  rewrite orb_false_r. apply orb_comm.
Qed.

Lemma clear_keys_ext (a b : list string) (s : Store) :
  (forall k, existsb (String.eqb k) a = existsb (String.eqb k) b) ->
  map (clear_keys a) s = map (clear_keys b) s.
Proof.
  intros H. apply map_ext. intros [[k v]|]; [|reflexivity].
  cbn [clear_keys]. now rewrite H.
Qed.

Lemma reached_from_refl (self : CacheReaper) (w : World) :
  reached_from self w w.
Proof.
  exists []. split; [reflexivity|]. cbn [deleted_keys].
  now rewrite clear_keys_nil.
Qed.

Lemma reached_from_trans (self : CacheReaper) (w1 w2 w3 : World) :
  reached_from self w1 w2 -> reached_from self w2 w3 ->
  reached_from self w1 w3.
Proof.
  intros (n1 & Hc1 & Hs1) (n2 & Hc2 & Hs2). exists (n2 ++ n1)%list.
  split; [now rewrite Hc2, Hc1, app_assoc|].
  rewrite Hs2, Hs1, clear_keys_app. apply clear_keys_ext. intros k.
  rewrite deleted_keys_app, !existsb_app. apply orb_comm.
Qed.

Lemma reached_from_record (self : CacheReaper) (c : Call) (w : World) :
  is_delete c = false -> reached_from self w (record c w).
Proof.
  intros H. exists [c]. split; [reflexivity|].
  destruct c; try discriminate; cbn [deleted_keys record store];
    now rewrite clear_keys_nil.
Qed.

Lemma reached_from_delete (self : CacheReaper)
    (domain username repository : string) (w : World) :
  reached_from self w
    (delete_domain_mappings self domain username repository w).
Proof.
  exists (if dry_run self then []
          else rev (map Delete (keys_to_delete domain username repository))).
  split; [apply delete_domain_mappings_calls|].
  rewrite delete_domain_mappings_store. apply clear_keys_ext. intros k.
  destruct (dry_run self); [reflexivity|].
  symmetry. apply deleted_keys_rev_map.
Qed.

Lemma reached_from_key (self : CacheReaper) (key : string)
    (c : Counters) (w : World) :
  reached_from self w (snd (scan_and_clean_key self key c w)).
Proof.
  assert (Hg : reached_from self w (record (Get key) w))
    by now apply reached_from_record.
  destruct (redis_get (store w) key) as [value|] eqn:Eg.
  2:{ rewrite scan_and_clean_key_skip by auto. exact Hg. }
  destruct (parse_repo_mapping value) as [[u r]|] eqn:Ep.
  2:{ rewrite scan_and_clean_key_skip by (right; right; now exists value).
      exact Hg. }
  rewrite (scan_and_clean_key_checked self key value u r c w Eg Ep).
  assert (Hh : reached_from self w
                 (record (HttpGet (pages_url self u r)) (record (Get key) w))).
  { apply (reached_from_trans _ _ _ _ Hg). now apply reached_from_record. }
  match goal with |- context [if ?b then _ else _] => destruct b end;
    cbn [snd]; [exact Hh|].
  apply (reached_from_trans _ _ _ _ Hh). apply reached_from_delete.
Qed.

Lemma reached_from_keys (self : CacheReaper) (keys : list string) :
  forall c w, reached_from self w (snd (scan_and_clean_keys self keys c w)).
Proof.
  induction keys as [|key keys IH]; intros c w; cbn [scan_and_clean_keys];
    [apply reached_from_refl|].
  pose proof (reached_from_key self key c w) as H1.
  destruct (scan_and_clean_key self key c w) as [c1 w1]. cbn [snd] in H1.
  apply (reached_from_trans _ _ _ _ H1). apply IH.
Qed.

Lemma reached_from_loop (self : CacheReaper) (count : nat) (fuel : nat) :
  forall cursor c w c' w',
    scan_and_clean_loop fuel self count cursor c w = Some (c', w') ->
    reached_from self w w'.
Proof.
  induction fuel as [|fuel IH]; intros cursor c w c' w' E; [discriminate|].
  cbn [scan_and_clean_loop] in E.
  destruct (redis_scan (store w) cursor "custom_domain:*" count) as [next keys].
  pose proof (reached_from_keys self keys c
                (record (Scan cursor "custom_domain:*" count) w)) as H1.
  destruct (scan_and_clean_keys self keys c _) as [c1 w1]. cbn [snd] in H1.
  assert (H0 : reached_from self w w1).
  { refine (reached_from_trans _ _ _ _ _ H1).
    now apply reached_from_record. }
  destruct (next =? 0)%nat.
  - injection E as <- <-. exact H0.
  - apply (reached_from_trans _ _ _ _ H0). exact (IH _ _ _ _ _ E).
Qed.

(** X10: a run only removes.  From an empty call log, the store after a
    run holds, under every key, the value it held before, except that the
    keys of the delete calls that did not raise are absent; no key is
    created and no value is changed, and the table keeps its size. *)
Theorem run_only_removes (fuel count : nat) (self : CacheReaper)
    (s : Store) (summary : nat * nat * nat) (w' : World) :
  scan_and_clean_paged fuel count self (mkWorld s []) = Some (summary, w') ->
  length (store w') = length s
  /\ (forall k,
        redis_get (store w') k
        = if existsb (String.eqb k) (deleted_keys self (calls w'))
          then None else redis_get s k)
  /\ (forall k v, redis_get (store w') k = Some v -> redis_get s k = Some v).
Proof.
  unfold scan_and_clean_paged. intros E.
  destruct (scan_and_clean_loop fuel self count 0 (mkCounters 0 0 0)
              (mkWorld s [])) as [[c wf]|] eqn:El; [|discriminate].
  injection E as _ <-.
  destruct (reached_from_loop self count fuel _ _ _ _ _ El) as (new & Hc & Hs).
  cbn [calls store] in Hc, Hs. rewrite app_nil_r in Hc. subst new.
  assert (Hget : forall k,
             redis_get (store wf) k
             = if existsb (String.eqb k) (deleted_keys self (calls wf))
               then None else redis_get s k).
  { intros k. rewrite Hs. apply redis_get_clear_keys. }
  split; [rewrite Hs; apply length_map|]. split; [exact Hget|].
  intros k v H. rewrite Hget in H.
  destruct (existsb _ _); [discriminate | exact H].
Qed.

Lemma run_only_removes_witness :
  match scan_and_clean 1 (reaper_with (session_status 404) false)
          (mkWorld (Some ("unrelated", "kept") :: store_one) []) with
  | Some (_, w') =>
      redis_get (store w') "unrelated" = Some "kept"
      /\ redis_get (store w') "custom_domain:b.test" = None
  | None => False
  end.
Proof.
  destruct (scan_and_clean 1 (reaper_with (session_status 404) false)
              (mkWorld (Some ("unrelated", "kept") :: store_one) []))
    as [[summary w']|] eqn:E.
  - destruct (run_only_removes 1 100 _ _ summary w' E) as (_ & Hget & _).
    rewrite !Hget. vm_compute in E. injection E as _ <-.
    split; reflexivity.
  - vm_compute in E. discriminate E.
Defined.

(** ** The calls of a run *)

Lemma scan_and_clean_key_tally (self : CacheReaper) (key : string)
    (c : Counters) (w : World) :
  fst (scan_and_clean_key self key c w) = tally (verdict self (store w) key) c.
Proof.
  unfold scan_and_clean_key, verdict, has_pages_file.
  destruct (redis_get (store w) key) as [[|a v]|]; try reflexivity.
  destruct (parse_repo_mapping (String a v)) as [[u r]|]; [|reflexivity].
  destruct (session_get self (pages_url self u r)) as [code|];
    [destruct (Z.eqb code 200)|]; reflexivity.
Qed.

Lemma count_calls_record (p : Call -> bool) (c : Call) (w : World) :
  count_calls p (record c w) = (if p c then 1 else 0) + count_calls p w.
Proof.
  unfold count_calls. cbn [record calls filter]. now destruct (p c).
Qed.

Lemma count_calls_delete (self : CacheReaper) (p : Call -> bool)
    (domain username repository : string) (w : World) :
  count_calls p (delete_domain_mappings self domain username repository w)
  = (if dry_run self then 0
     else length (filter p (map Delete
                              (keys_to_delete domain username repository))))
    + count_calls p w.
Proof.
  unfold count_calls. rewrite delete_domain_mappings_calls.
  destruct (dry_run self); [reflexivity|].
  rewrite filter_app, length_app, filter_rev, length_rev. reflexivity.
Qed.

Lemma scan_and_clean_key_calls (self : CacheReaper) (key : string)
    (c : Counters) (w : World) :
  let v := verdict self (store w) key in
  let w' := snd (scan_and_clean_key self key c w) in
  count_calls is_get w' = S (count_calls is_get w)
  /\ count_calls is_http_get w'
     = (if is_skipped v then 0 else 1) + count_calls is_http_get w
  /\ count_calls is_delete w'
     = (if is_evicted v && negb (dry_run self) then 8 else 0)
       + count_calls is_delete w.
Proof.
  cbv zeta. unfold verdict.
  destruct (redis_get (store w) key) as [value|] eqn:Eg.
  2:{ rewrite scan_and_clean_key_skip by auto. cbn [snd].
      rewrite !count_calls_record. repeat split. }
  destruct (parse_repo_mapping value) as [[u r]|] eqn:Ep.
  2:{ rewrite scan_and_clean_key_skip by (right; right; now exists value).
      cbn [snd]. rewrite !count_calls_record.
      destruct value; repeat split. }
  rewrite (scan_and_clean_key_checked self key value u r c w Eg Ep).
  destruct value as [|a value]; [discriminate|].
  destruct (session_get self (pages_url self u r)) as [code|];
    [destruct (Z.eqb code 200)|]; cbn [snd is_skipped is_evicted andb];
    rewrite ?count_calls_delete, !count_calls_record;
    try (repeat split; fail).
  destruct (dry_run self); repeat split.
Qed.

Lemma scan_and_clean_key_account (self : CacheReaper) (key : string)
    (c : Counters) (w : World) :
  let c' := fst (scan_and_clean_key self key c w) in
  let w' := snd (scan_and_clean_key self key c w) in
  let per_eviction := if dry_run self then 0 else 8 in
  count_calls is_get w' + total_domains c
  = count_calls is_get w + total_domains c'
  /\ count_calls is_http_get w' + total_domains c + error_count c'
     = count_calls is_http_get w + total_domains c' + error_count c
  /\ count_calls is_delete w' + per_eviction * cleaned_domains c
     = count_calls is_delete w + per_eviction * cleaned_domains c'.
Proof.
  cbv zeta.
  destruct (scan_and_clean_key_calls self key c w) as (Hg & Hh & Hd).
  rewrite scan_and_clean_key_tally, Hg, Hh, Hd.
  destruct (verdict self (store w) key), (dry_run self);
    cbn [tally is_skipped is_evicted andb negb total_domains
         cleaned_domains error_count]; lia.
Qed.

Lemma scan_and_clean_keys_account (self : CacheReaper) (keys : list string) :
  forall c w,
    let c' := fst (scan_and_clean_keys self keys c w) in
    let w' := snd (scan_and_clean_keys self keys c w) in
    let per_eviction := if dry_run self then 0 else 8 in
    count_calls is_get w' + total_domains c
    = count_calls is_get w + total_domains c'
    /\ count_calls is_http_get w' + total_domains c + error_count c'
       = count_calls is_http_get w + total_domains c' + error_count c
    /\ count_calls is_delete w' + per_eviction * cleaned_domains c
       = count_calls is_delete w + per_eviction * cleaned_domains c'.
Proof.
  induction keys as [|key keys IH]; intros c w; cbn [scan_and_clean_keys];
    [cbn [fst snd]; lia|].
  pose proof (scan_and_clean_key_account self key c w) as H1.
  destruct (scan_and_clean_key self key c w) as [c1 w1].
  cbn [fst snd] in H1. specialize (IH c1 w1). cbv zeta in *. lia.
Qed.

Lemma scan_and_clean_loop_account (self : CacheReaper) (count : nat)
    (fuel : nat) :
  forall cursor c w c' w',
    scan_and_clean_loop fuel self count cursor c w = Some (c', w') ->
    let per_eviction := if dry_run self then 0 else 8 in
    count_calls is_get w' + total_domains c
    = count_calls is_get w + total_domains c'
    /\ count_calls is_http_get w' + total_domains c + error_count c'
       = count_calls is_http_get w + total_domains c' + error_count c
    /\ count_calls is_delete w' + per_eviction * cleaned_domains c
       = count_calls is_delete w + per_eviction * cleaned_domains c'.
Proof.
  induction fuel as [|fuel IH]; intros cursor c w c' w' E; [discriminate|].
  cbn [scan_and_clean_loop] in E.
  destruct (redis_scan (store w) cursor "custom_domain:*" count) as [next keys].
  pose proof (scan_and_clean_keys_account self keys c
                (record (Scan cursor "custom_domain:*" count) w)) as H1.
  destruct (scan_and_clean_keys self keys c _) as [c1 w1].
  cbn [fst snd] in H1. rewrite !count_calls_record in H1.
  cbn [is_get is_http_get is_delete] in H1.
  destruct (next =? 0)%nat.
  - injection E as <- <-. cbv zeta in *. lia.
  - specialize (IH _ _ _ _ _ E). cbv zeta in *. lia.
Qed.

(** X11: the calls of a run, counted against its summary.  From an empty
    call log a run issues one GET per key seen, one oracle request per key
    seen that was not skipped as an error, and eight deletes per eviction
    in normal mode, none in a dry run. *)
Theorem run_call_counts (fuel count : nat) (self : CacheReaper) (s : Store)
    (total cleaned errors : nat) (w' : World) :
  scan_and_clean_paged fuel count self (mkWorld s [])
  = Some ((total, cleaned, errors), w') ->
  count_calls is_get w' = total
  /\ count_calls is_http_get w' + errors = total
  /\ count_calls is_delete w' = if dry_run self then 0 else 8 * cleaned.
Proof.
  unfold scan_and_clean_paged. intros E.
  destruct (scan_and_clean_loop fuel self count 0 (mkCounters 0 0 0)
              (mkWorld s [])) as [[c wf]|] eqn:El; [|discriminate].
  injection E as <- <- <- <-.
  pose proof (scan_and_clean_loop_account self count fuel _ _ _ _ _ El) as H.
  cbv zeta in H. unfold count_calls in H at 2 4 6.
  cbn [calls filter length total_domains cleaned_domains error_count] in H.
  destruct (dry_run self); lia.
Qed.

Lemma run_call_counts_witness :
  match scan_and_clean 1 (reaper_with (session_status 404) false)
          (mkWorld store_crossed []) with
  | Some ((total, cleaned, errors), w') =>
      count_calls is_get w' = total
      /\ count_calls is_http_get w' + errors = total
      /\ count_calls is_delete w' = 8 * cleaned
  | None => False
  end.
Proof.
  destruct (scan_and_clean 1 (reaper_with (session_status 404) false)
              (mkWorld store_crossed []))
    as [[[[total cleaned] errors] w']|] eqn:E.
  - exact (run_call_counts 1 100 _ _ _ _ _ _ E).
  - vm_compute in E. discriminate E.
Defined.

(** ** The summary of a run *)

Lemma tally_all_app (self : CacheReaper) (s : Store) (a b : list string)
    (c : Counters) :
  tally_all self s (a ++ b) c = tally_all self s b (tally_all self s a c).
Proof. unfold tally_all. apply fold_left_app. Qed.

Lemma tally_all_counts (self : CacheReaper) (s : Store) (keys : list string) :
  forall c,
    total_domains (tally_all self s keys c) = total_domains c + length keys
    /\ cleaned_domains (tally_all self s keys c)
       = cleaned_domains c + count_verdict is_evicted self s keys
    /\ error_count (tally_all self s keys c)
       = error_count c + count_verdict is_skipped self s keys.
Proof.
  unfold count_verdict.
  induction keys as [|key keys IH]; intros c; cbn [tally_all fold_left];
    [cbn [filter length]; lia|].
  fold (tally_all self s keys (tally (verdict self s key) c)).
  destruct (IH (tally (verdict self s key) c)) as (Ht & Hc & He).
  rewrite Ht, Hc, He. cbn [filter].
  destruct (verdict self s key);
    cbn [tally is_evicted is_skipped length total_domains cleaned_domains
         error_count]; lia.
Qed.

Lemma scan_and_clean_keys_dry_tally (self : CacheReaper) (keys : list string) :
  dry_run self = true ->
  forall c w,
    fst (scan_and_clean_keys self keys c w) = tally_all self (store w) keys c.
Proof.
  intros Hd. induction keys as [|key keys IH]; intros c w;
    cbn [scan_and_clean_keys tally_all fold_left]; [reflexivity|].
  pose proof (scan_and_clean_key_tally self key c w) as Ht.
  pose proof (scan_and_clean_key_dry self key c w Hd) as [Hs _].
  destruct (scan_and_clean_key self key c w) as [c1 w1].
  cbn [fst snd] in Ht, Hs. rewrite IH, Hs, Ht. reflexivity.
Qed.

Lemma scan_and_clean_loop_dry_tally (self : CacheReaper) (count : nat)
    (fuel : nat) :
  dry_run self = true -> 0 < count ->
  forall cursor c w c' w',
    scan_and_clean_loop fuel self count cursor c w = Some (c', w') ->
    c' = tally_all self (store w) (forward_keys (skipn cursor (store w))) c.
Proof.
  intros Hd Hc. induction fuel as [|fuel IH]; intros cursor c w c' w' E;
    [discriminate|].
  cbn [scan_and_clean_loop] in E. unfold redis_scan in E.
  set (w0 := record (Scan cursor "custom_domain:*" count) w) in E.
  set (keys := matching_keys "custom_domain:*"
                 (firstn count (skipn cursor (store w)))) in E.
  pose proof (scan_and_clean_keys_dry_tally self keys Hd c w0) as Ht.
  pose proof (scan_and_clean_keys_dry self keys Hd c w0) as [Hs _].
  destruct (scan_and_clean_keys self keys c w0) as [c1 w1].
  cbn [fst snd w0 record store] in Ht, Hs.
  assert (Hsplit : forward_keys (skipn cursor (store w))
                   = (keys ++ forward_keys
                                (skipn (cursor + count) (store w)))%list).
  { rewrite <- (forward_keys_page count (skipn cursor (store w))).
    rewrite skipn_skipn, (Nat.add_comm count cursor). reflexivity. }
  rewrite Hsplit, tally_all_app, <- Ht.
  destruct (cursor + count <? length (store w))%nat eqn:Hn.
  - apply Nat.ltb_lt in Hn.
    replace (cursor + count =? 0)%nat with false in E
      by (symmetry; apply Nat.eqb_neq; lia).
    rewrite (IH _ _ _ _ _ E), Hs. reflexivity.
  - apply Nat.ltb_ge in Hn. cbn [Nat.eqb] in E. injection E as <- <-.
    rewrite skipn_all2 by lia. reflexivity.
Qed.

(** ** An oracle that never denies *)

Lemma verdict_never_evicted (self : CacheReaper) :
  (forall url status,
     session_get self url = Response status -> status = 200%Z) ->
  forall s keys, count_verdict is_evicted self s keys = 0.
Proof.
  intros H s keys. unfold count_verdict.
  induction keys as [|key keys IH]; [reflexivity|]. cbn [filter].
  replace (is_evicted (verdict self s key)) with false; [exact IH|].
  unfold verdict.
  destruct (redis_get s key) as [[|a v]|]; try reflexivity.
  destruct (parse_repo_mapping (String a v)) as [[u r]|]; [|reflexivity].
  destruct (session_get self (pages_url self u r)) as [code|] eqn:E;
    [|reflexivity].
  rewrite (H _ _ E). reflexivity.
Qed.

Lemma scan_and_clean_key_never_denied (self : CacheReaper) (key : string)
    (c : Counters) (w : World) :
  (forall url status,
     session_get self url = Response status -> status = 200%Z) ->
  scan_and_clean_key self key c w
  = scan_and_clean_key (with_dry_run true self) key c w.
Proof.
  intros H. unfold scan_and_clean_key, has_pages_file.
  destruct (redis_get (store w) key) as [[|a v]|]; try reflexivity.
  destruct (parse_repo_mapping (String a v)) as [[u r]|]; [|reflexivity].
  change (pages_url (with_dry_run true self) u r) with (pages_url self u r).
  change (session_get (with_dry_run true self)) with (session_get self).
  destruct (session_get self (pages_url self u r)) as [code|] eqn:E;
    [|reflexivity].
  rewrite (H _ _ E). reflexivity.
Qed.

Lemma scan_and_clean_loop_never_denied (self : CacheReaper) (count : nat)
    (fuel : nat) :
  (forall url status,
     session_get self url = Response status -> status = 200%Z) ->
  forall cursor c w,
    scan_and_clean_loop fuel self count cursor c w
    = scan_and_clean_loop fuel (with_dry_run true self) count cursor c w.
Proof.
  intros H.
  assert (Hk : forall keys c w,
             scan_and_clean_keys self keys c w
             = scan_and_clean_keys (with_dry_run true self) keys c w).
  { induction keys as [|key keys IH]; intros c w; [reflexivity|].
    cbn [scan_and_clean_keys].
    rewrite (scan_and_clean_key_never_denied self key c w H).
    destruct (scan_and_clean_key (with_dry_run true self) key c w).
    apply IH. }
  induction fuel as [|fuel IH]; intros cursor c w; [reflexivity|].
  cbn [scan_and_clean_loop].
  destruct (redis_scan (store w) cursor "custom_domain:*" count) as [next keys].
  rewrite Hk. destruct (scan_and_clean_keys _ keys c _) as [c1 w1].
  destruct (next =? 0)%nat; [reflexivity | apply IH].
Qed.

(** X13: when the session never answers with a status other than 200
    (it answers 200 or the request fails), a run in either mode comes to an
    end, evicts nothing, issues no delete and leaves the store as it was,
    whatever the store holds. *)
Theorem nothing_denied_nothing_deleted (self : CacheReaper)
    (count fuel : nat) (w : World) :
  (forall url status,
     session_get self url = Response status -> status = 200%Z) ->
  0 < count -> length (store w) < fuel ->
  exists errors w',
    scan_and_clean_paged fuel count self w
    = Some ((length (forward_keys (store w)), 0, errors), w')
    /\ store w' = store w
    /\ filter is_delete (calls w') = filter is_delete (calls w).
Proof.
  intros H Hc Hf. unfold scan_and_clean_paged.
  rewrite (scan_and_clean_loop_never_denied self count fuel H).
  destruct (scan_and_clean_loop_dry (with_dry_run true self) count fuel
              eq_refl Hc 0 (mkCounters 0 0 0) w)
    as (c & wd & E & Hs & Hk & _); [lia|].
  pose proof (scan_and_clean_loop_dry_tally (with_dry_run true self) count
                fuel eq_refl Hc _ _ _ _ _ E) as Ht.
  cbn [skipn] in Ht. rewrite E.
  destruct (tally_all_counts (with_dry_run true self) (store w)
              (forward_keys (store w)) (mkCounters 0 0 0)) as (Htot & Hcl & _).
  rewrite <- Ht in Htot, Hcl.
  rewrite (verdict_never_evicted (with_dry_run true self) H) in Hcl.
  cbn [total_domains cleaned_domains Nat.add] in Htot, Hcl.
  exists (error_count c), wd. rewrite Htot, Hcl.
  split; [reflexivity|]. split; [exact Hs | exact Hk].
Qed.

Lemma nothing_denied_nothing_deleted_witness :
  exists errors w',
    scan_and_clean_paged 3 100 (reaper_with session_timeout false)
      (mkWorld store_crossed [])
    = Some ((2, 0, errors), w')
    /\ store w' = store_crossed
    /\ filter is_delete (calls w') = [].
Proof.
  apply (nothing_denied_nothing_deleted (reaper_with session_timeout false)
           100 3 (mkWorld store_crossed [])).
  - intros url status E. discriminate E.
  - lia.
  - simpl. lia.
Defined.

(** ** The existence check *)

(** X14: the existence check sends one request and never touches the
    store; it answers false exactly when a response arrives whose status is
    not 200; and owner and repository are put into the URL as they are, so
    that a '/' moved from one to the other gives the same request. *)
Theorem has_pages_file_request (self : CacheReaper)
    (username repository : string) (w : World) :
  snd (has_pages_file self username repository w)
  = record (HttpGet (forgejo_host self ++ "/api/v1/repos/" ++ username
                       ++ "/" ++ repository ++ "/contents/.pages")) w
  /\ (fst (has_pages_file self username repository w) = false
      <-> exists status,
            session_get self (pages_url self username repository)
            = Response status
            /\ status <> 200%Z)
  /\ (forall a b c,
        pages_url self (a ++ "/" ++ b) c = pages_url self a (b ++ "/" ++ c)).
Proof.
  unfold has_pages_file. split; [|split].
  - destruct (session_get self (pages_url self username repository));
      reflexivity.
  - destruct (session_get self (pages_url self username repository))
      as [code|]; cbn [fst].
    + split.
      * intros H. exists code. split; [reflexivity|].
        intros ->. discriminate H.
      * intros (status & E & Hs). injection E as ->.
        now apply Z.eqb_neq.
    + split; [discriminate|]. intros (status & E & _). discriminate E.
  - intros a b c. unfold pages_url. rewrite !append_assoc. reflexivity.
Qed.

(** ** Helpers on the store *)

Lemma keys_to_delete_forward (key value username repository k : string) :
  is_forward key = true ->
  parse_repo_mapping value = Some (username, repository) ->
  is_forward value = false ->
  is_forward k = true ->
  In k (keys_to_delete (slice_from 14 key) username repository) -> k = key.
Proof.
  intros Hkey Hp Hv Hk Hin. unfold keys_to_delete in Hin. cbn [app] in Hin.
  destruct Hin as [<- | [<- | Hin]].
  - now apply is_forward_strip.
  - rewrite (parse_repo_mapping_rejoin _ _ _ Hp), Hv in Hk. discriminate.
  - exfalso.
    repeat (destruct Hin as [<- | Hin]; [discriminate Hk|]). contradiction.
Qed.

Lemma verdict_get_ext (self : CacheReaper) (s1 s2 : Store) (k : string) :
  redis_get s1 k = redis_get s2 k -> verdict self s1 k = verdict self s2 k.
Proof. unfold verdict. now intros ->. Qed.

Lemma filter_split_length (A : Type) (p : A -> bool) (l : list A) :
  length (filter (fun x => negb (p x)) l) + length (filter p l) = length l.
Proof.
  induction l as [|a l IH]; [reflexivity|]. cbn [filter].
  destruct (p a); cbn [negb length]; lia.
Qed.

Lemma filter_none (A : Type) (p : A -> bool) (l : list A) :
  (forall x, In x l -> p x = false) -> filter p l = [].
Proof.
  induction l as [|a l IH]; intros H; [reflexivity|]. cbn [filter].
  rewrite (H a (or_introl eq_refl)). apply IH. intros x Hx. apply H. now right.
Qed.

Lemma filter_filter_implied (A : Type) (p q : A -> bool) (l : list A) :
  (forall x, p x = true -> q x = true) ->
  filter p (filter q l) = filter p l.
Proof.
  intros H. induction l as [|a l IH]; [reflexivity|]. cbn [filter].
  destruct (q a) eqn:Eq; cbn [filter].
  - destruct (p a); now rewrite IH.
  - destruct (p a) eqn:Ep; [|exact IH].
    rewrite (H a Ep) in Eq. discriminate.
Qed.


(** * The run over a store that may move its entries *)

(** ** Deleting in place is an instance *)

Lemma delete_keys_with_in_place (self : CacheReaper) (keys : list string) :
  forall n w,
    delete_keys_with delete_in_place self keys n w = delete_keys self keys n w.
Proof.
  induction keys as [|key keys IH]; intros n w; [reflexivity|].
  cbn [delete_keys_with delete_keys].
  destruct (delete_raises self key); apply IH.
Qed.

Lemma scan_and_clean_key_with_in_place (self : CacheReaper) (key : string)
    (c : Counters) (w : World) :
  scan_and_clean_key_with delete_in_place self key c w
  = scan_and_clean_key self key c w.
Proof.
  unfold scan_and_clean_key_with, scan_and_clean_key,
    delete_domain_mappings_with, delete_domain_mappings.
  destruct (redis_get (store w) key) as [[|a v]|];
    [reflexivity| |reflexivity].
  destruct (parse_repo_mapping (String a v)) as [[u r]|]; [|reflexivity].
  destruct (has_pages_file self u r (record (Get key) w)) as [[] w1];
    [reflexivity|].
  cbn [negb]. now rewrite delete_keys_with_in_place.
Qed.

Lemma scan_and_clean_keys_with_in_place (self : CacheReaper)
    (keys : list string) :
  forall c w,
    scan_and_clean_keys_with delete_in_place self keys c w
    = scan_and_clean_keys self keys c w.
Proof.
  induction keys as [|key keys IH]; intros c w; [reflexivity|].
  cbn [scan_and_clean_keys_with scan_and_clean_keys].
  rewrite scan_and_clean_key_with_in_place.
  destruct (scan_and_clean_key self key c w). apply IH.
Qed.

(** With the in-place delete the run is the run of the first part. *)
Lemma scan_and_clean_paged_with_in_place (fuel count : nat)
    (self : CacheReaper) (w : World) :
  scan_and_clean_paged_with delete_in_place fuel count self w
  = scan_and_clean_paged fuel count self w.
Proof.
  unfold scan_and_clean_paged_with, scan_and_clean_paged.
  assert (H : forall cursor c w0,
             scan_and_clean_loop_with delete_in_place fuel self count cursor c w0
             = scan_and_clean_loop fuel self count cursor c w0).
  { induction fuel as [|fuel IH]; intros cursor c w0; [reflexivity|].
    cbn [scan_and_clean_loop_with scan_and_clean_loop].
    destruct (redis_scan (store w0) cursor "custom_domain:*" count)
      as [next keys].
    rewrite scan_and_clean_keys_with_in_place.
    destruct (scan_and_clean_keys self keys c _) as [c1 w1].
    destruct (next =? 0)%nat; [reflexivity | apply IH]. }
  now rewrite H.
Qed.

Lemma matching_keys_clear (pattern key : string) (l : list slot) :
  matching_keys pattern (map (clear_slot key) l)
  = filter (fun k => negb (String.eqb key k)) (matching_keys pattern l).
Proof.
  induction l as [|[[k v]|] l IH]; cbn [map clear_slot matching_keys];
    [reflexivity| |exact IH].
  destruct (String.eqb k key) eqn:E.
  - apply String.eqb_eq in E. subst k. cbn [matching_keys]. rewrite IH.
    destruct (glob_match pattern key); [|reflexivity].
    cbn [filter]. now rewrite String.eqb_refl.
  - cbn [matching_keys]. destruct (glob_match pattern k); [|exact IH].
    cbn [filter]. rewrite String.eqb_sym, E. cbn [negb]. now rewrite IH.
Qed.

Lemma delete_in_place_law : delete_law delete_in_place.
Proof. intros s key k. apply redis_get_clear. Qed.

Lemma delete_in_place_undisturbed : scan_undisturbed delete_in_place.
Proof.
  intros s key cursor pattern count.
  unfold delete_in_place, redis_scan. cbn [redis_delete fst snd].
  rewrite length_map, skipn_map, firstn_map, matching_keys_clear.
  reflexivity.
Qed.

Lemma delete_in_place_never_grows : never_grows delete_in_place.
Proof.
  intros s key. unfold delete_in_place. cbn [redis_delete snd].
  now rewrite length_map.
Qed.

(** ** The loop body on any store *)

Lemma scan_and_clean_key_with_tally (del : Store -> string -> Store)
    (self : CacheReaper) (key : string) (c : Counters) (w : World) :
  fst (scan_and_clean_key_with del self key c w)
  = tally (verdict self (store w) key) c.
Proof.
  unfold scan_and_clean_key_with, verdict, has_pages_file.
  destruct (redis_get (store w) key) as [[|a v]|]; try reflexivity.
  destruct (parse_repo_mapping (String a v)) as [[u r]|]; [|reflexivity].
  destruct (session_get self (pages_url self u r)) as [code|];
    [destruct (Z.eqb code 200)|]; reflexivity.
Qed.

(** The store after the loop body: as it was, unless the verdict is an
    eviction in normal mode, when it is the store after the delete loop
    over the keys of the mapping. *)
Lemma scan_and_clean_key_with_store (del : Store -> string -> Store)
    (self : CacheReaper) (key : string) (c : Counters) (w : World) :
  (is_evicted (verdict self (store w) key) && negb (dry_run self) = false ->
   store (snd (scan_and_clean_key_with del self key c w)) = store w)
  /\ (is_evicted (verdict self (store w) key) && negb (dry_run self) = true ->
      exists value username repository w1,
        redis_get (store w) key = Some value
        /\ parse_repo_mapping value = Some (username, repository)
        /\ store w1 = store w
        /\ snd (scan_and_clean_key_with del self key c w)
           = snd (delete_keys_with del self
                    (keys_to_delete (slice_from 14 key) username repository)
                    0 w1)).
Proof.
  unfold scan_and_clean_key_with, verdict, has_pages_file,
    delete_domain_mappings_with.
  destruct (redis_get (store w) key) as [[|a v]|] eqn:Eg;
    try (split; [reflexivity | discriminate]).
  destruct (parse_repo_mapping (String a v)) as [[u r]|] eqn:Ep;
    [|split; [reflexivity | discriminate]].
  destruct (session_get self (pages_url self u r)) as [code|];
    [destruct (Z.eqb code 200)|];
    try (split; [reflexivity | discriminate]).
  cbn [negb is_evicted fst snd].
  destruct (dry_run self); cbn [negb andb].
  - split; [reflexivity | discriminate].
  - split; [discriminate|].
    intros _. exists (String a v), u, r.
    exists (record (HttpGet (pages_url self u r)) (record (Get key) w)).
    split; [reflexivity|]. split; [exact Ep|]. split; reflexivity.
Qed.

Lemma scan_and_clean_keys_with_dry (del : Store -> string -> Store)
    (self : CacheReaper) (keys : list string) :
  dry_run self = true ->
  forall c w,
    scan_and_clean_keys_with del self keys c w
    = scan_and_clean_keys self keys c w.
Proof.
  intros Hd. induction keys as [|key keys IH]; intros c w; [reflexivity|].
  cbn [scan_and_clean_keys_with scan_and_clean_keys].
  assert (E : scan_and_clean_key_with del self key c w
              = scan_and_clean_key self key c w).
  { unfold scan_and_clean_key_with, scan_and_clean_key,
      delete_domain_mappings_with, delete_domain_mappings.
    now rewrite Hd. }
  rewrite E. destruct (scan_and_clean_key self key c w). apply IH.
Qed.

(** In a dry run no delete is made, and the run is the same on every
    store. *)
Lemma scan_and_clean_loop_with_dry (del : Store -> string -> Store)
    (self : CacheReaper) (count : nat) (fuel : nat) :
  dry_run self = true ->
  forall cursor c w,
    scan_and_clean_loop_with del fuel self count cursor c w
    = scan_and_clean_loop fuel self count cursor c w.
Proof.
  intros Hd. induction fuel as [|fuel IH]; intros cursor c w; [reflexivity|].
  cbn [scan_and_clean_loop_with scan_and_clean_loop].
  destruct (redis_scan (store w) cursor "custom_domain:*" count) as [next keys].
  rewrite (scan_and_clean_keys_with_dry del self keys Hd).
  destruct (scan_and_clean_keys self keys c _) as [c1 w1].
  destruct (next =? 0)%nat; [reflexivity | apply IH].
Qed.

(** ** A normal run on a store whose scan is not disturbed *)

Lemma filter_all (A : Type) (p : A -> bool) (l : list A) :
  (forall x, In x l -> p x = true) -> filter p l = l.
Proof.
  induction l as [|a l IH]; intros H; [reflexivity|]. cbn [filter].
  rewrite (H a (or_introl eq_refl)), IH; [reflexivity|].
  intros x Hx. apply H. now right.
Qed.

Lemma filter_twice (A : Type) (p q : A -> bool) (l : list A) :
  filter p (filter q l) = filter (fun x => q x && p x) l.
Proof.
  induction l as [|a l IH]; [reflexivity|]. cbn [filter].
  destruct (q a); cbn [filter andb]; [destruct (p a)|]; now rewrite IH.
Qed.

Lemma nodup_app_disjoint (A : Type) (a b : list A) (x : A) :
  NoDup (a ++ b) -> In x a -> In x b -> False.
Proof.
  induction a as [|y a IH]; intros Hnd Ha Hb; [contradiction|].
  cbn [app] in Hnd. apply NoDup_cons_iff in Hnd as [Hy Hnd].
  destruct Ha as [-> | Ha]; [|now apply IH].
  apply Hy, in_or_app. now right.
Qed.

Section Relayout.

Variable del : Store -> string -> Store.
Hypothesis del_law : delete_law del.
Hypothesis del_scan : scan_undisturbed del.
Variable self : CacheReaper.

Lemma follows_refl (d : Store) : follows [] d d.
Proof.
  split; [reflexivity|]. intros cursor count.
  rewrite filter_all by reflexivity.
  now destruct (redis_scan d cursor "custom_domain:*" count).
Qed.

Lemma follows_delete (gone : list string) (d n : Store) (key : string) :
  follows gone d n -> follows (key :: gone) d (del n key).
Proof.
  intros [Hget Hscan]. split.
  - intros k. rewrite del_law, Hget. cbn [existsb].
    rewrite (String.eqb_sym k key).
    now destruct (String.eqb key k).
  - intros cursor count. rewrite del_scan, Hscan. cbn [fst snd].
    f_equal. rewrite filter_twice. apply filter_ext. intros k.
    cbn [existsb]. rewrite (String.eqb_sym k key), negb_orb.
    apply andb_comm.
Qed.

Lemma follows_delete_keys (d : Store) (keys : list string) :
  forall gone cnt w,
    follows gone d (store w) ->
    follows
      (rev (filter (fun k => negb (delete_raises self k)) keys) ++ gone)
      d (store (snd (delete_keys_with del self keys cnt w))).
Proof.
  induction keys as [|key keys IH]; intros gone cnt w H; [exact H|].
  cbn [delete_keys_with filter].
  destruct (delete_raises self key); cbn [negb].
  - apply IH. exact H.
  - cbn [rev]. rewrite <- app_assoc. cbn [app].
    apply IH. cbn [record store]. now apply follows_delete.
Qed.

Lemma in_step_key (d : Store) (key : string) (done : list string)
    (c : Counters) (wn : World) :
  dry_run self = false ->
  no_collision_get d ->
  in_step self d (store wn) done ->
  ~ In key done ->
  is_forward key = true ->
  Forall (fun k => is_forward k = true) done ->
  fst (scan_and_clean_key_with del self key c wn)
  = tally (verdict self d key) c
  /\ in_step self d (store (snd (scan_and_clean_key_with del self key c wn)))
       (done ++ [key]).
Proof.
  intros Hd Hnc (gone & [Hget Hscan] & Hfw & Hev) Hnew Hkey Hfd.
  assert (Hkg : existsb (String.eqb key) gone = false).
  { destruct (existsb (String.eqb key) gone) eqn:E; [|reflexivity].
    apply existsb_exists in E as (x & Hx & Hxe).
    apply String.eqb_eq in Hxe. subst x.
    exfalso. apply Hnew. now apply Hfw. }
  assert (Hg : redis_get (store wn) key = redis_get d key)
    by now rewrite Hget, Hkg.
  pose proof (verdict_get_ext self _ _ _ Hg) as Hv.
  split; [now rewrite scan_and_clean_key_with_tally, Hv|].
  destruct (scan_and_clean_key_with_store del self key c wn) as [Hsame Hdel].
  rewrite Hv, Hd in Hsame, Hdel. cbn [negb] in Hsame, Hdel.
  rewrite andb_true_r in Hsame, Hdel.
  rewrite Forall_forall in Hfd.
  destruct (is_evicted (verdict self d key)) eqn:Eev.
  - destruct (Hdel eq_refl) as (value & u & r & w1 & Hgv & Hp & Hs1 & ->).
    assert (Hvalue : is_forward value = false).
    { apply (Hnc key value); [now rewrite <- Hg | exact Hkey]. }
    exists (rev (filter (fun k => negb (delete_raises self k))
                   (keys_to_delete (slice_from 14 key) u r)) ++ gone)%list.
    split; [apply follows_delete_keys; rewrite Hs1; now split|]. split.
    + intros x Hx Hfx. apply in_or_app.
      apply in_app_iff in Hx as [Hx|Hx]; [right | left; now apply Hfw].
      apply in_rev, filter_In in Hx as [Hx _].
      rewrite (keys_to_delete_forward key value u r x Hkey Hp Hvalue Hfx Hx).
      now left.
    + intros Hr k Hk. rewrite existsb_app.
      apply in_app_iff in Hk as [Hk | [<- | []]].
      * replace (existsb (String.eqb k) (rev _)) with false;
          [now apply Hev|].
        symmetry. apply not_true_iff_false. intros E.
        apply existsb_exists in E as (x & Hx & Hxe).
        apply String.eqb_eq in Hxe. subst x.
        apply in_rev, filter_In in Hx as [Hx _].
        apply Hnew.
        rewrite <- (keys_to_delete_forward key value u r k Hkey Hp Hvalue
                      (Hfd k Hk) Hx).
        exact Hk.
      * rewrite Eev.
        replace (existsb (String.eqb key) (rev _)) with true; [reflexivity|].
        symmetry. apply existsb_exists. exists key.
        split; [|apply String.eqb_refl].
        apply -> in_rev. apply filter_In. split; [|now rewrite Hr].
        unfold keys_to_delete. cbn [app]. left. now apply is_forward_strip.
  - rewrite (Hsame eq_refl). exists gone.
    split; [now split|]. split.
    + intros x Hx Hfx. apply in_or_app. left. now apply Hfw.
    + intros Hr k Hk. apply in_app_iff in Hk as [Hk | [<- | []]];
        [now apply Hev | now rewrite Hkg, Eev].
Qed.

Lemma in_step_keys (d : Store) (pending : list string) :
  dry_run self = false ->
  no_collision_get d ->
  forall done c wn,
    in_step self d (store wn) done ->
    NoDup (done ++ pending) ->
    Forall (fun k => is_forward k = true) (done ++ pending) ->
    fst (scan_and_clean_keys_with del self pending c wn)
    = tally_all self d pending c
    /\ in_step self d
         (store (snd (scan_and_clean_keys_with del self pending c wn)))
         (done ++ pending).
Proof.
  intros Hd Hnc. induction pending as [|key pending IH];
    intros done c wn Hin Hnd Hf.
  - rewrite app_nil_r. now split.
  - cbn [scan_and_clean_keys_with tally_all fold_left].
    fold (tally_all self d pending (tally (verdict self d key) c)).
    assert (Hnew : ~ In key done).
    { apply NoDup_remove_2 in Hnd. intros H. apply Hnd, in_or_app.
      now left. }
    apply Forall_app in Hf as [Hfd Hfp].
    destruct (in_step_key d key done c wn Hd Hnc Hin Hnew
                (Forall_inv Hfp) Hfd) as [Hc Hin1].
    destruct (scan_and_clean_key_with del self key c wn) as [c1 w1].
    cbn [fst snd] in Hc, Hin1. subst c1.
    replace (done ++ key :: pending)%list
      with ((done ++ [key]) ++ pending)%list
      by (rewrite <- app_assoc; reflexivity).
    apply IH; [exact Hin1 | rewrite <- app_assoc; exact Hnd |].
    rewrite <- app_assoc. apply Forall_app. split; assumption.
Qed.

(** The loop of a normal run on such a store: it comes back to cursor 0
    within the fuel, and its counters are those of the verdicts on the
    store it started on. *)
Lemma in_step_loop (d : Store) (count : nat) :
  dry_run self = false ->
  no_collision_get d -> 0 < count ->
  forall fuel cursor done c wn,
    length d - cursor < fuel ->
    in_step self d (store wn) done ->
    NoDup (done ++ forward_keys (skipn cursor d)) ->
    Forall (fun k => is_forward k = true) done ->
    exists w',
      scan_and_clean_loop_with del fuel self count cursor c wn
      = Some (tally_all self d (forward_keys (skipn cursor d)) c, w')
      /\ in_step self d (store w') (done ++ forward_keys (skipn cursor d)).
Proof.
  intros Hd Hnc Hc. induction fuel as [|fuel IH];
    intros cursor done c wn Hf Hin Hnd Hfd; [lia|].
  cbn [scan_and_clean_loop_with].
  set (keys := forward_keys (firstn count (skipn cursor d))).
  assert (Hsplit : forward_keys (skipn cursor d)
                   = (keys ++ forward_keys (skipn (cursor + count) d))%list).
  { rewrite <- (forward_keys_page count (skipn cursor d)).
    rewrite skipn_skipn, (Nat.add_comm count cursor). reflexivity. }
  assert (Hfk : Forall (fun k => is_forward k = true) keys).
  { apply Forall_forall. intros k Hk.
    apply (forward_keys_forward _ _ Hk). }
  assert (Hpage : redis_scan (store wn) cursor "custom_domain:*" count
                  = ((if (cursor + count <? length d)%nat
                      then cursor + count else 0), keys)).
  { destruct Hin as (gone & [_ Hscan] & Hfw & _). rewrite Hscan.
    unfold redis_scan. cbn [fst snd]. f_equal.
    apply filter_all. intros x Hx. apply negb_true_iff.
    apply not_true_iff_false. intros E.
    apply existsb_exists in E as (y & Hy & Hxy).
    apply String.eqb_eq in Hxy. subst y.
    apply (nodup_app_disjoint _ _ _ x Hnd).
    - apply Hfw; [exact Hy | apply (forward_keys_forward _ _ Hx)].
    - rewrite Hsplit. apply in_or_app. now left. }
  rewrite Hpage.
  set (w0 := record (Scan cursor "custom_domain:*" count) wn).
  rewrite Hsplit, app_assoc in Hnd.
  destruct (in_step_keys d keys Hd Hnc done c w0 Hin
              (NoDup_app_remove_r _ _ Hnd)) as [Hcnt Hin1].
  { apply Forall_app. split; assumption. }
  destruct (scan_and_clean_keys_with del self keys c w0) as [c1 w1].
  cbn [fst snd] in Hcnt, Hin1. subst c1.
  rewrite Hsplit, tally_all_app, app_assoc.
  destruct (cursor + count <? length d)%nat eqn:Hn.
  - apply Nat.ltb_lt in Hn.
    replace (cursor + count =? 0)%nat with false
      by (symmetry; apply Nat.eqb_neq; lia).
    apply IH; [lia | exact Hin1 | exact Hnd |].
    apply Forall_app. split; assumption.
  - apply Nat.ltb_ge in Hn. cbn [Nat.eqb]. exists w1.
    rewrite skipn_all2 by lia. cbn [forward_keys matching_keys].
    rewrite app_nil_r. now split.
Qed.

End Relayout.

(** ** Termination and quiet runs on any store *)

Lemma delete_keys_with_length (del : Store -> string -> Store)
    (self : CacheReaper) (keys : list string) :
  never_grows del ->
  forall n w,
    length (store (snd (delete_keys_with del self keys n w)))
    <= length (store w).
Proof.
  intros Hg. induction keys as [|key keys IH]; intros n w;
    cbn [delete_keys_with]; [cbn [snd]; lia|].
  destruct (delete_raises self key).
  - apply (IH n (record (Delete key) w)).
  - etransitivity; [apply IH|]. cbn [store record]. apply Hg.
Qed.

Lemma scan_and_clean_keys_with_length (del : Store -> string -> Store)
    (self : CacheReaper) (keys : list string) :
  never_grows del ->
  forall c w,
    length (store (snd (scan_and_clean_keys_with del self keys c w)))
    <= length (store w).
Proof.
  intros Hg. induction keys as [|key keys IH]; intros c w;
    cbn [scan_and_clean_keys_with]; [cbn [snd]; lia|].
  assert (H1 : length (store (snd (scan_and_clean_key_with del self key c w)))
               <= length (store w)).
  { destruct (scan_and_clean_key_with_store del self key c w)
      as [Hsame Hdel].
    destruct (is_evicted (verdict self (store w) key) && negb (dry_run self)).
    - destruct (Hdel eq_refl) as (value & u & r & w1 & _ & _ & Hs & ->).
      rewrite <- Hs. now apply delete_keys_with_length.
    - rewrite (Hsame eq_refl). lia. }
  destruct (scan_and_clean_key_with del self key c w) as [c1 w1].
  cbn [snd] in H1. specialize (IH c1 w1). lia.
Qed.

Lemma scan_and_clean_loop_with_terminates (del : Store -> string -> Store)
    (self : CacheReaper) (count : nat) :
  never_grows del -> 0 < count ->
  forall fuel cursor c w,
    length (store w) - cursor < fuel ->
    exists c' w',
      scan_and_clean_loop_with del fuel self count cursor c w = Some (c', w')
      /\ length (store w') <= length (store w).
Proof.
  intros Hg Hc. induction fuel as [|fuel IH]; intros cursor c w Hf; [lia|].
  cbn [scan_and_clean_loop_with]. unfold redis_scan.
  set (w0 := record (Scan cursor "custom_domain:*" count) w).
  pose proof (scan_and_clean_keys_with_length del self
                (matching_keys "custom_domain:*"
                   (firstn count (skipn cursor (store w)))) Hg c w0) as Hl.
  destruct (scan_and_clean_keys_with del self _ c w0) as [c1 w1].
  cbn [snd w0 record store] in Hl.
  destruct (cursor + count <? length (store w))%nat eqn:Hn.
  - apply Nat.ltb_lt in Hn.
    replace (cursor + count =? 0)%nat with false
      by (symmetry; apply Nat.eqb_neq; lia).
    destruct (IH (cursor + count) c1 w1) as (c' & w' & E & Hl'); [lia|].
    exists c', w'. split; [exact E | lia].
  - cbn [Nat.eqb]. exists c1, w1. split; [reflexivity | exact Hl].
Qed.

Lemma scan_and_clean_keys_with_quiet (del : Store -> string -> Store)
    (self : CacheReaper) (keys : list string) :
  forall c w,
    (forall k, In k keys -> is_evicted (verdict self (store w) k) = false) ->
    store (snd (scan_and_clean_keys_with del self keys c w)) = store w.
Proof.
  induction keys as [|key keys IH]; intros c w H;
    cbn [scan_and_clean_keys_with]; [reflexivity|].
  destruct (scan_and_clean_key_with_store del self key c w) as [Hsame _].
  rewrite (H key (or_introl eq_refl)) in Hsame. specialize (Hsame eq_refl).
  destruct (scan_and_clean_key_with del self key c w) as [c1 w1].
  cbn [snd] in Hsame. rewrite IH; [exact Hsame|].
  intros k Hk. rewrite Hsame. apply H. now right.
Qed.

(** A run whose verdicts hold no eviction leaves the store as it is. *)
Lemma scan_and_clean_loop_with_quiet (del : Store -> string -> Store)
    (self : CacheReaper) (count : nat) (fuel : nat) :
  forall cursor c w c' w',
    (forall k, In k (forward_keys (skipn cursor (store w))) ->
               is_evicted (verdict self (store w) k) = false) ->
    scan_and_clean_loop_with del fuel self count cursor c w = Some (c', w') ->
    store w' = store w.
Proof.
  induction fuel as [|fuel IH]; intros cursor c w c' w' H E; [discriminate|].
  cbn [scan_and_clean_loop_with] in E. unfold redis_scan in E.
  set (w0 := record (Scan cursor "custom_domain:*" count) w) in E.
  assert (Hsplit : forward_keys (skipn cursor (store w))
                   = (forward_keys (firstn count (skipn cursor (store w)))
                      ++ forward_keys (skipn (cursor + count) (store w)))%list).
  { rewrite <- (forward_keys_page count (skipn cursor (store w))).
    rewrite skipn_skipn, (Nat.add_comm count cursor). reflexivity. }
  pose proof (scan_and_clean_keys_with_quiet del self
                (matching_keys "custom_domain:*"
                   (firstn count (skipn cursor (store w)))) c w0) as Hq.
  destruct (scan_and_clean_keys_with del self _ c w0) as [c1 w1].
  cbn [snd w0 record store] in Hq.
  assert (Hs : store w1 = store w).
  { apply Hq. intros k Hk. apply H. rewrite Hsplit. apply in_or_app.
    now left. }
  destruct ((if (cursor + count <? length (store w))%nat
             then cursor + count else 0) =? 0)%nat eqn:En.
  - injection E as _ <-. exact Hs.
  - assert (En' : (if (cursor + count <? length (store w))%nat
                   then cursor + count else 0) = cursor + count).
    { destruct (cursor + count <? length (store w))%nat;
        [reflexivity | discriminate]. }
    rewrite En' in E. rewrite <- Hs.
    apply (IH (cursor + count) c1 w1 c' w'); [|exact E].
    intros k Hk. rewrite Hs in Hk |- *. apply H. rewrite Hsplit.
    apply in_or_app. now right.
Qed.

(** ** The run on any store *)

Lemma no_collision_read (s : Store) : no_collision s -> no_collision_get s.
Proof. intros H k v Hg. apply H. now apply redis_get_In. Qed.

Lemma dry_run_counters (del : Store -> string -> Store) (self : CacheReaper)
    (count fuel : nat) (w : World) :
  0 < count -> length (store w) < fuel ->
  exists wd,
    scan_and_clean_loop_with del fuel (with_dry_run true self) count 0
      (mkCounters 0 0 0) w
    = Some (tally_all self (store w) (forward_keys (store w))
              (mkCounters 0 0 0), wd)
    /\ store wd = store w
    /\ filter is_delete (calls wd) = filter is_delete (calls w).
Proof.
  intros Hc Hf.
  rewrite (scan_and_clean_loop_with_dry del (with_dry_run true self) count
             fuel eq_refl).
  destruct (scan_and_clean_loop_dry (with_dry_run true self) count fuel
              eq_refl Hc 0 (mkCounters 0 0 0) w)
    as (c & wd & E & Hs & Hk & _); [lia|].
  pose proof (scan_and_clean_loop_dry_tally (with_dry_run true self) count
                fuel eq_refl Hc _ _ _ _ _ E) as Ht.
  cbn [skipn] in Ht. exists wd. rewrite E, Ht.
  split; [reflexivity|]. split; [exact Hs | exact Hk].
Qed.

Lemma normal_run_counters (del : Store -> string -> Store)
    (self : CacheReaper) (count fuel : nat) (w : World) :
  delete_law del -> scan_undisturbed del ->
  0 < count -> length (store w) < fuel ->
  store_wf (store w) -> no_collision (store w) ->
  exists wn,
    scan_and_clean_loop_with del fuel (with_dry_run false self) count 0
      (mkCounters 0 0 0) w
    = Some (tally_all self (store w) (forward_keys (store w))
              (mkCounters 0 0 0), wn)
    /\ in_step (with_dry_run false self) (store w) (store wn)
         (forward_keys (store w)).
Proof.
  intros Hk Hu Hc Hf Hwf Hnc.
  destruct (in_step_loop del Hk Hu (with_dry_run false self) (store w) count
              eq_refl (no_collision_read _ Hnc) Hc fuel 0 []
              (mkCounters 0 0 0) w)
    as (wn & E & Hin).
  - lia.
  - exists []. split; [apply follows_refl|].
    split; [intros x [] | intros _ k []].
  - cbn [app skipn]. now apply store_wf_forward_keys.
  - constructor.
  - exists wn. cbn [app skipn] in E, Hin. split; [exact E | exact Hin].
Qed.

(** C3, as the code has it: a dry run comes to an end, leaves the store as
    it found it and issues no delete call, whatever the store and the
    oracle.  Its summary is the summary of the normal run on the same store
    and oracle provided that no key is stored twice, that no forward
    entry's value is itself a [custom_domain:*] key, and that the store's
    DELETE acts on the deleted key alone: GET then finds every other key
    as before, and every SCAN call returns the cursor and the keys it
    would have returned, less the deleted key. *)
Theorem dry_run_same_summary (del : Store -> string -> Store)
    (self : CacheReaper) (count fuel : nat) (w : World) :
  0 < count -> length (store w) < fuel ->
  exists summary wd,
    scan_and_clean_paged_with del fuel count (with_dry_run true self) w
    = Some (summary, wd)
    /\ store wd = store w
    /\ filter is_delete (calls wd) = filter is_delete (calls w)
    /\ (delete_law del -> scan_undisturbed del ->
        store_wf (store w) -> no_collision (store w) ->
        exists wn,
          scan_and_clean_paged_with del fuel count (with_dry_run false self) w
          = Some (summary, wn)).
Proof.
  intros Hc Hf. unfold scan_and_clean_paged_with.
  destruct (dry_run_counters del self count fuel w Hc Hf)
    as (wd & E & Hs & Hcalls).
  rewrite E. eexists. exists wd.
  split; [reflexivity|]. split; [exact Hs|]. split; [exact Hcalls|].
  intros Hk Hu Hwf Hnc.
  destruct (normal_run_counters del self count fuel w Hk Hu Hc Hf Hwf Hnc)
    as (wn & En & _).
  rewrite En. now exists wn.
Qed.

Lemma dry_run_same_summary_witness :
  exists wd wn,
    scan_and_clean_paged_with delete_in_place 3 1
      (with_dry_run true (reaper_with session_one_stale false))
      (mkWorld store_two [])
    = Some ((2, 1, 0), wd)
    /\ scan_and_clean_paged_with delete_in_place 3 1
         (with_dry_run false (reaper_with session_one_stale false))
         (mkWorld store_two [])
       = Some ((2, 1, 0), wn)
    /\ store wd = store_two
    /\ filter is_delete (calls wd) = []
    /\ length (filter is_delete (calls wn)) = 8.
Proof.
  destruct (dry_run_same_summary delete_in_place
              (reaper_with session_one_stale false) 1 3
              (mkWorld store_two []))
    as (summary & wd & E & Hs & Hk & Hn); [lia | simpl; lia |].
  destruct (Hn delete_in_place_law delete_in_place_undisturbed)
    as (wn & En).
  - repeat constructor; simpl; intuition discriminate.
  - intros k v [E1 | [E1 | []]] _; injection E1 as <- <-; reflexivity.
  - exists wd, wn.
    assert (Hsum : summary = (2, 1, 0)).
    { vm_compute in E. now injection E as <- _. }
    subst summary.
    split; [exact E|]. split; [exact En|]. split; [exact Hs|].
    split; [exact Hk|].
    vm_compute in En. injection En as <-. reflexivity.
Defined.

(** The proviso on SCAN is needed: with a delete that closes the gap it
    leaves, on a store that holds no key twice and no forward value that
    is a forward key, the normal run skips the entry that moved up behind
    the cursor. *)
Lemma compacting_delete_changes_summary :
  option_map fst
    (scan_and_clean_paged_with delete_compacting 3 1
       (reaper_with (session_status 404) true) (mkWorld store_two []))
  = Some (2, 2, 0)
  /\ option_map fst
       (scan_and_clean_paged_with delete_compacting 3 1
          (reaper_with (session_status 404) false) (mkWorld store_two []))
     = Some (1, 1, 0).
Proof. split; reflexivity. Qed.

(** C8, as the code has it: for every positive page size the loop comes
    back to cursor 0 and the run returns, in a dry run always and in a
    normal run when a DELETE never lengthens the store's table.  The keys
    it has then seen are as many as the store held under [custom_domain:*]
    at the start, whatever the page size, in a dry run, and in a normal run
    provided that no key is stored twice, that no forward entry's value is
    itself a [custom_domain:*] key, and that the store's DELETE acts on the
    deleted key alone: GET then finds every other key as before, and every
    SCAN call returns the cursor and the keys it would have returned, less
    the deleted key. *)
Theorem scan_sees_every_forward_key (del : Store -> string -> Store)
    (self : CacheReaper) (count fuel : nat) (w : World) :
  0 < count -> length (store w) < fuel ->
  (dry_run self = true \/ never_grows del ->
   exists summary w',
     scan_and_clean_paged_with del fuel count self w = Some (summary, w'))
  /\ (dry_run self = true
      \/ (delete_law del /\ scan_undisturbed del
          /\ store_wf (store w) /\ no_collision (store w)) ->
      exists cleaned errors w',
        scan_and_clean_paged_with del fuel count self w
        = Some ((length (forward_keys (store w)), cleaned, errors), w')).
Proof.
  intros Hc Hf. unfold scan_and_clean_paged_with.
  assert (Hdry : dry_run self = true ->
                 exists cleaned errors w',
                   match scan_and_clean_loop_with del fuel self count 0
                           (mkCounters 0 0 0) w with
                   | Some (c, w0) =>
                       Some (total_domains c, cleaned_domains c,
                             error_count c, w0)
                   | None => None
                   end
                   = Some ((length (forward_keys (store w)), cleaned, errors),
                           w')).
  { intros Hd.
    destruct (dry_run_counters del self count fuel w Hc Hf) as (wd & E & _).
    rewrite <- (with_dry_run_same self), Hd, E.
    destruct (tally_all_counts self (store w) (forward_keys (store w))
                (mkCounters 0 0 0)) as (Ht & _).
    rewrite Ht. now eexists _, _, wd. }
  split.
  - intros [Hd | Hg].
    + destruct (Hdry Hd) as (cl & er & w' & E). rewrite E. now eexists _, w'.
    + destruct (scan_and_clean_loop_with_terminates del self count Hg Hc
                  fuel 0 (mkCounters 0 0 0) w) as (c' & w' & E & _); [lia|].
      rewrite E. now eexists _, w'.
  - intros [Hd | (Hk & Hu & Hwf & Hnc)]; [now apply Hdry|].
    destruct (dry_run self) eqn:Hd; [now apply Hdry|].
    destruct (normal_run_counters del self count fuel w Hk Hu Hc Hf Hwf Hnc)
      as (wn & En & _).
    rewrite <- (with_dry_run_same self), Hd, En.
    destruct (tally_all_counts self (store w) (forward_keys (store w))
                (mkCounters 0 0 0)) as (Ht & _).
    rewrite Ht. now eexists _, _, wn.
Qed.

Lemma scan_sees_every_forward_key_witness :
  exists w',
    scan_and_clean_paged_with delete_in_place 3 1
      (reaper_with session_one_stale false) (mkWorld store_two [])
    = Some ((2, 1, 0), w')
    /\ length (filter is_delete (calls w')) = 8.
Proof.
  destruct (scan_sees_every_forward_key delete_in_place
              (reaper_with session_one_stale false) 1 3
              (mkWorld store_two []))
    as (Hterm & Hcount); [lia | simpl; lia |].
  destruct (Hterm (or_intror delete_in_place_never_grows))
    as (summary & w0 & E0).
  destruct Hcount as (cleaned & errors & w' & E).
  - right. split; [exact delete_in_place_law|].
    split; [exact delete_in_place_undisturbed|]. split.
    + repeat constructor; simpl; intuition discriminate.
    + intros k v [E1 | [E1 | []]] _; injection E1 as <- <-; reflexivity.
  - exists w'. vm_compute in E. injection E as <- <- <-.
    split; reflexivity.
Defined.

(** X12: the summary, read off the store.  For every positive page size
    and enough fuel, the run returns the number of forward keys, the number
    of them whose value parses and whose existence check answers with a
    status other than 200, and the number of them whose value is missing,
    empty or without a ':'; in a dry run always, and in a normal run
    provided that no key is stored twice, that no forward entry's value is
    itself a [custom_domain:*] key, and that the store's DELETE acts on the
    deleted key alone, for GET and for SCAN. *)
Theorem summary_counts_verdicts (del : Store -> string -> Store)
    (self : CacheReaper) (count fuel : nat) (w : World) :
  0 < count -> length (store w) < fuel ->
  dry_run self = true
  \/ (delete_law del /\ scan_undisturbed del
      /\ store_wf (store w) /\ no_collision (store w)) ->
  exists w',
    scan_and_clean_paged_with del fuel count self w
    = Some ((length (forward_keys (store w)),
             count_verdict is_evicted self (store w) (forward_keys (store w)),
             count_verdict is_skipped self (store w) (forward_keys (store w))),
            w').
Proof.
  intros Hc Hf H. unfold scan_and_clean_paged_with.
  destruct (tally_all_counts self (store w) (forward_keys (store w))
              (mkCounters 0 0 0)) as (Ht & Hcl & He).
  destruct (dry_run self) eqn:Hd.
  - destruct (dry_run_counters del self count fuel w Hc Hf) as (wd & E & _).
    rewrite <- (with_dry_run_same self), Hd, E, Ht, Hcl, He. now exists wd.
  - destruct H as [H | (Hk & Hu & Hwf & Hnc)]; [discriminate|].
    destruct (normal_run_counters del self count fuel w Hk Hu Hc Hf Hwf Hnc)
      as (wn & En & _).
    rewrite <- (with_dry_run_same self), Hd, En, Ht, Hcl, He. now exists wn.
Qed.

Lemma summary_counts_verdicts_witness :
  exists w',
    scan_and_clean_paged_with delete_in_place 3 1
      (reaper_with (session_status 404) false)
      (mkWorld [Some ("custom_domain:a.test", "bob:siteA");
                Some ("custom_domain:b.test", "")] [])
    = Some ((2, 1, 1), w').
Proof.
  apply (summary_counts_verdicts delete_in_place
           (reaper_with (session_status 404) false) 1 3
           (mkWorld [Some ("custom_domain:a.test", "bob:siteA");
                     Some ("custom_domain:b.test", "")] [])).
  - lia.
  - simpl. lia.
  - right. split; [exact delete_in_place_law|].
    split; [exact delete_in_place_undisturbed|]. split.
    + repeat constructor; simpl; intuition discriminate.
    + intros k v [E | [E | []]] _; injection E as <- <-; reflexivity.
Defined.

(** ** What a normal run leaves behind *)

Lemma follows_forward_keys (gone : list string) (d n : Store) :
  follows gone d n ->
  forward_keys n
  = filter (fun k => negb (existsb (String.eqb k) gone)) (forward_keys d).
Proof.
  intros [_ Hscan].
  specialize (Hscan 0 (Nat.max (length n) (length d))).
  unfold redis_scan in Hscan. cbn [skipn fst snd] in Hscan.
  rewrite !firstn_all2 in Hscan by lia.
  now injection Hscan.
Qed.

Lemma survivors_of_a_run (self : CacheReaper) (d n : Store) :
  (forall k, delete_raises self k = false) ->
  in_step self d n (forward_keys d) ->
  (forall k, In k (forward_keys d) ->
     redis_get n k
     = if is_evicted (verdict self d k) then None else redis_get d k)
  /\ forward_keys n
     = filter (fun k => negb (is_evicted (verdict self d k))) (forward_keys d).
Proof.
  intros Hr (gone & Hfol & _ & Hev). specialize (Hev Hr). split.
  - intros k Hk. destruct Hfol as [Hget _]. now rewrite Hget, (Hev k Hk).
  - rewrite (follows_forward_keys gone d n Hfol). apply filter_ext_in.
    intros k Hk. now rewrite (Hev k Hk).
Qed.

(** X17: what a normal run leaves in the forward keyspace.  When no delete
    raises, on a store that holds no key twice and no forward entry whose
    value is a [custom_domain:*] key, and whose DELETE acts on the deleted
    key alone, for GET and for SCAN: the run comes to an end; afterwards
    every forward key whose verdict was eviction is absent, every other
    forward key holds the value it held, and the forward keys left are
    those that were not evicted. *)
Theorem run_removes_stale_forward_entries (del : Store -> string -> Store)
    (self : CacheReaper) (count fuel : nat) (w : World) :
  delete_law del -> scan_undisturbed del ->
  dry_run self = false ->
  (forall k, delete_raises self k = false) ->
  0 < count -> length (store w) < fuel ->
  store_wf (store w) -> no_collision (store w) ->
  exists summary w1,
    scan_and_clean_paged_with del fuel count self w = Some (summary, w1)
    /\ (forall k, In k (forward_keys (store w)) ->
          redis_get (store w1) k
          = if is_evicted (verdict self (store w) k) then None
            else redis_get (store w) k)
    /\ forward_keys (store w1)
       = filter (fun k => negb (is_evicted (verdict self (store w) k)))
           (forward_keys (store w)).
Proof.
  intros Hk Hu Hd Hr Hc Hf Hwf Hnc. unfold scan_and_clean_paged_with.
  destruct (normal_run_counters del self count fuel w Hk Hu Hc Hf Hwf Hnc)
    as (w1 & E & Hin).
  assert (Hself : with_dry_run false self = self)
    by (rewrite <- Hd; apply with_dry_run_same).
  rewrite Hself in E, Hin. rewrite E. eexists. exists w1.
  split; [reflexivity|].
  exact (survivors_of_a_run self (store w) (store w1) Hr Hin).
Qed.

Lemma run_removes_stale_forward_entries_witness :
  exists summary w1,
    scan_and_clean_paged_with delete_in_place 3 1
      (reaper_with session_one_stale false) (mkWorld store_two [])
    = Some (summary, w1)
    /\ forward_keys (store w1) = ["custom_domain:a.test"].
Proof.
  destruct (run_removes_stale_forward_entries delete_in_place
              (reaper_with session_one_stale false) 1 3
              (mkWorld store_two [])
              delete_in_place_law delete_in_place_undisturbed)
    as (summary & w1 & E & _ & Hfw).
  - reflexivity.
  - reflexivity.
  - lia.
  - simpl. lia.
  - repeat constructor; simpl; intuition discriminate.
  - intros k v [E | [E | []]] _; injection E as <- <-; reflexivity.
  - exists summary, w1. split; [exact E|]. rewrite Hfw. reflexivity.
Defined.

(** X16: a second run finds nothing to evict.  In normal mode, when no
    delete raises, on a store that holds no key twice and no forward entry
    whose value is a [custom_domain:*] key, and whose DELETE acts on the
    deleted key alone, for GET and for SCAN, and never lengthens the table:
    if a run returns (total, cleaned, errors), a run started on the state
    it leaves behind, with the same oracle answers, returns (total -
    cleaned, 0, errors) and leaves the store as it found it. *)
Theorem second_run_evicts_nothing (del : Store -> string -> Store)
    (self : CacheReaper) (count fuel : nat) (w : World) :
  delete_law del -> scan_undisturbed del -> never_grows del ->
  dry_run self = false ->
  (forall k, delete_raises self k = false) ->
  0 < count -> length (store w) < fuel ->
  store_wf (store w) -> no_collision (store w) ->
  exists total cleaned errors w1 w2,
    scan_and_clean_paged_with del fuel count self w
    = Some ((total, cleaned, errors), w1)
    /\ scan_and_clean_paged_with del fuel count self w1
       = Some ((total - cleaned, 0, errors), w2)
    /\ store w2 = store w1.
Proof.
  intros Hk Hu Hg Hd Hr Hc Hf Hwf Hnc. unfold scan_and_clean_paged_with.
  assert (Hself : with_dry_run false self = self)
    by (rewrite <- Hd; apply with_dry_run_same).
  destruct (normal_run_counters del self count fuel w Hk Hu Hc Hf Hwf Hnc)
    as (w1 & E1 & Hin).
  rewrite Hself in E1, Hin.
  destruct (survivors_of_a_run self (store w) (store w1) Hr Hin)
    as [Hget Hf1].
  (* the store left behind *)
  assert (Hlen : length (store w1) <= length (store w)).
  { destruct (scan_and_clean_loop_with_terminates del self count Hg Hc
                fuel 0 (mkCounters 0 0 0) w) as (c' & w' & E & Hl); [lia|].
    rewrite E1 in E. now injection E as _ <-. }
  assert (Hv1 : forall k, In k (forward_keys (store w1)) ->
                  is_evicted (verdict self (store w) k) = false
                  /\ verdict self (store w1) k = verdict self (store w) k).
  { intros k Hk1. rewrite Hf1 in Hk1.
    apply filter_In in Hk1 as [Hk0 Hv]. apply negb_true_iff in Hv.
    split; [exact Hv|]. apply verdict_get_ext.
    now rewrite (Hget k Hk0), Hv. }
  assert (Hnd1 : NoDup (forward_keys (store w1))).
  { rewrite Hf1. apply NoDup_filter. now apply store_wf_forward_keys. }
  assert (Hnc1 : no_collision_get (store w1)).
  { intros k v Hgv Hfk.
    destruct Hin as (gone & [Hgn _] & _).
    rewrite Hgn in Hgv.
    destruct (existsb (String.eqb k) gone); [discriminate|].
    exact (no_collision_read _ Hnc k v Hgv Hfk). }
  (* the second run *)
  destruct (in_step_loop del Hk Hu self (store w1) count Hd Hnc1 Hc fuel 0 []
              (mkCounters 0 0 0) w1) as (w2 & E2 & _).
  { lia. }
  { exists []. split; [apply follows_refl|].
    split; [intros x [] | intros _ k []]. }
  { exact Hnd1. }
  { constructor. }
  cbn [app skipn] in E2.
  destruct (tally_all_counts self (store w) (forward_keys (store w))
              (mkCounters 0 0 0)) as (Ht1 & Hc1 & He1).
  destruct (tally_all_counts self (store w1) (forward_keys (store w1))
              (mkCounters 0 0 0)) as (Ht2 & Hc2 & He2).
  assert (Hev2 : count_verdict is_evicted self (store w1)
                   (forward_keys (store w1)) = 0).
  { unfold count_verdict. rewrite filter_none; [reflexivity|].
    intros k Hk1. destruct (Hv1 k Hk1) as [Hv ->]. exact Hv. }
  assert (Hsk2 : count_verdict is_skipped self (store w1)
                   (forward_keys (store w1))
                 = count_verdict is_skipped self (store w)
                     (forward_keys (store w))).
  { unfold count_verdict.
    rewrite (filter_ext_in
               (fun k => is_skipped (verdict self (store w1) k))
               (fun k => is_skipped (verdict self (store w) k)))
      by (intros k Hk1; now destruct (Hv1 k Hk1) as [_ ->]).
    rewrite Hf1. f_equal. apply filter_filter_implied.
    intros k. now destruct (verdict self (store w) k). }
  assert (Hlen1 : length (forward_keys (store w1))
                  + count_verdict is_evicted self (store w)
                      (forward_keys (store w))
                  = length (forward_keys (store w))).
  { rewrite Hf1. apply filter_split_length. }
  exists (length (forward_keys (store w))),
         (count_verdict is_evicted self (store w) (forward_keys (store w))),
         (count_verdict is_skipped self (store w) (forward_keys (store w))),
         w1, w2.
  rewrite E1, E2. cbv beta iota.
  rewrite Ht1, Hc1, He1, Ht2, Hc2, He2, Hev2, Hsk2.
  cbn [total_domains cleaned_domains error_count].
  split; [reflexivity|]. split.
  - rewrite <- Hlen1, Nat.add_sub. reflexivity.
  - refine (scan_and_clean_loop_with_quiet del self count fuel 0
              (mkCounters 0 0 0) w1 _ w2 _ E2).
    intros k Hk1. cbn [skipn] in Hk1. destruct (Hv1 k Hk1) as [Hv ->].
    exact Hv.
Qed.

Lemma second_run_evicts_nothing_witness :
  exists w1 w2,
    scan_and_clean_paged_with delete_in_place 3 1
      (reaper_with (session_status 404) false)
      (mkWorld [Some ("custom_domain:a.test", "bob:siteA");
                Some ("custom_domain:b.test", "")] [])
    = Some ((2, 1, 1), w1)
    /\ scan_and_clean_paged_with delete_in_place 3 1
         (reaper_with (session_status 404) false) w1
       = Some ((1, 0, 1), w2)
    /\ store w2 = store w1.
Proof.
  destruct (second_run_evicts_nothing delete_in_place
              (reaper_with (session_status 404) false) 1 3
              (mkWorld [Some ("custom_domain:a.test", "bob:siteA");
                        Some ("custom_domain:b.test", "")] [])
              delete_in_place_law delete_in_place_undisturbed
              delete_in_place_never_grows)
    as (total & cleaned & errors & w1 & w2 & E1 & E2 & Hs).
  - reflexivity.
  - reflexivity.
  - lia.
  - simpl. lia.
  - repeat constructor; simpl; intuition discriminate.
  - intros k v [E | [E | []]] _; injection E as <- <-; reflexivity.
  - exists w1, w2. vm_compute in E1. injection E1 as <- <- <- <-.
    split; [reflexivity|]. split; [exact E2 | exact Hs].
Defined.
